(** * Budget tracker: the import pipeline and the ledger of [budget_app.py]

    A shallow embedding of the core of [src/budget_app.py]: the CSV row
    filter of the "Import CSV" page, the duplicate detection loop,
    [auto_categorize], the commit of an expense (manual form and import
    loop) and the creation of a month budget.

    Python values are kept as the program has them.  Amounts, incomes and
    percentages are Python floats, that is IEEE 754 binary64 numbers; they
    are [spec_float] values computed with the operations of the Standard
    Library's [SpecFloat] at precision 53 and maximal exponent 1024.
    Dictionaries whose iteration order the program relies on (the two rule
    tables) are association lists in insertion order; the other
    dictionaries are finite maps.  Strings are byte strings; [upper] maps
    the ASCII letters and leaves every other character as it is, and
    [FloatParse.float_of_string] knows the ASCII digits and the ASCII
    white space.  On text in ASCII they are [str.upper] and [float] of
    Python; the letters, digits and spaces of other scripts, which Python
    knows too, are outside the model, and the statements on letter case
    are made for text in ASCII ([is_ascii]). *)

From Stdlib Require Import ZArith NArith String Ascii List Bool Lia.
From Stdlib Require Import Floats.SpecFloat.
From stdpp Require Import gmap strings list fin_maps.

Local Open Scope Z_scope.

(** ** Python floats *)

Abbreviation float := spec_float.

Module Float.

Definition prec : Z := 53.
Definition emax : Z := 1024.

Definition zero : float := S754_zero false.
Definition inf : float := S754_infinity false.
Definition nan : float := S754_nan.

Definition add : float -> float -> float := SFadd prec emax.
Definition sub : float -> float -> float := SFsub prec emax.
Definition mul : float -> float -> float := SFmul prec emax.
Definition div : float -> float -> float := SFdiv prec emax.
Definition abs : float -> float := SFabs.

(** [x < y], [x >= y] and [x == y] of Python; all three are [False] as
    soon as one side is a NaN. *)
Definition ltb (x y : float) : bool := SFltb x y.
Definition geb (x y : float) : bool := SFleb y x.
Definition eqb (x y : float) : bool := SFeqb x y.

Definition is_finite (x : float) : bool :=
  match x with
  | S754_zero _ | S754_finite _ _ _ => true
  | S754_infinity _ | S754_nan => false
  end.

(** The float nearest to the integer [z]. *)
Definition of_Z (z : Z) : float := binary_normalize prec emax z 0 false.

(** The float nearest to [(-1)^neg * m * 10^e], ties to even: what
    [strtod] returns for the decimal numeral with digits [m] and decimal
    exponent [e].  The quotient of two integers is rounded once by the
    division of [SpecFloat], whose mantissas are not bounded. *)
Definition of_decimal (neg : bool) (m : N) (e : Z) : float :=
  match m with
  | N0 => S754_zero neg
  | Npos p =>
      match e with
      | Zneg k => div (S754_finite neg p 0) (S754_finite false (10 ^ k)%positive 0)
      | _ => binary_round prec emax neg (p * Z.to_pos (10 ^ e))%positive 0
      end
  end.

(** Literals of the program. *)
Definition hundred : float := of_Z 100.
Definition cent : float := of_decimal false 1 (-2).

(** [round(x, 2)]: the exact value of [x] is rounded to the nearest
    multiple of 1/100, ties to the even multiple, and that decimal is
    converted back to a float; infinities, NaN and zeros are returned as
    they are, and a result that rounds to zero keeps the sign of [x]. *)
Definition hundredths (m : positive) (e : Z) : Z :=
  match e with
  | Zneg k =>
      let den := Zpos (2 ^ k)%positive in
      let q := (Zpos m * 100) / den in
      let r := (Zpos m * 100) mod den in
      match (2 * r) ?= den with
      | Lt => q
      | Eq => if Z.even q then q else q + 1
      | Gt => q + 1
      end
  | _ => Zpos m * 100 * 2 ^ e
  end.

Definition round2 (x : float) : float :=
  match x with
  | S754_finite s m e => of_decimal s (Z.to_N (hundredths m e)) (-2)
  | _ => x
  end.

End Float.

(** ** Python strings *)

Local Open Scope string_scope.
Local Open Scope list_scope.

Definition upper_char (c : ascii) : ascii :=
  let n := nat_of_ascii c in
  if ((97 <=? n) && (n <=? 122))%nat then ascii_of_nat (n - 32) else c.

Definition lower_char (c : ascii) : ascii :=
  let n := nat_of_ascii c in
  if ((65 <=? n) && (n <=? 90))%nat then ascii_of_nat (n + 32) else c.

(** [s.upper()] *)
Fixpoint upper (s : string) : string :=
  match s with
  | EmptyString => EmptyString
  | String c s' => String (upper_char c) (upper s')
  end.

Fixpoint startswith (s p : string) : bool :=
  match p, s with
  | EmptyString, _ => true
  | String a p', String b s' => Ascii.eqb a b && startswith s' p'
  | String _ _, EmptyString => false
  end.

(** [needle in s] on strings: [needle] occurs in [s] as a substring. *)
Fixpoint contains (s needle : string) : bool :=
  startswith s needle ||
  match s with
  | EmptyString => false
  | String _ s' => contains s' needle
  end.

(** [s.replace(',', '')] *)
Fixpoint remove_commas (s : string) : string :=
  match s with
  | EmptyString => EmptyString
  | String c s' =>
      if Ascii.eqb c "," then remove_commas s' else String c (remove_commas s')
  end.

(** Truth value of a string: the empty string is false. *)
Definition nonempty (s : string) : bool :=
  match s with EmptyString => false | String _ _ => true end.

(** ** [float(s)] on a string

    Leading and trailing white space is dropped; an underscore is accepted
    between two digits; then comes an optional sign followed by [inf],
    [infinity] or [nan] in any case, or by a decimal numeral with an
    optional fraction and an optional exponent.  [None] stands for the
    [ValueError] that every other string raises. *)

Module FloatParse.

Definition is_space (c : ascii) : bool :=
  let n := nat_of_ascii c in
  (((9 <=? n) && (n <=? 13)) || (n =? 32))%nat.

Definition is_digit (c : ascii) : bool :=
  let n := nat_of_ascii c in ((48 <=? n) && (n <=? 57))%nat.

Fixpoint lstrip (cs : list ascii) : list ascii :=
  match cs with
  | c :: cs' => if is_space c then lstrip cs' else cs
  | [] => []
  end.

Definition strip (cs : list ascii) : list ascii :=
  rev (lstrip (rev (lstrip cs))).

(** Removes the underscores; fails when one of them does not stand
    between two digits.  [prev] is the character before [cs]. *)
Fixpoint drop_underscores (prev : option ascii) (cs : list ascii) : option (list ascii) :=
  match cs with
  | [] =>
      match prev with
      | Some p => if Ascii.eqb p "_" then None else Some []
      | None => Some []
      end
  | c :: cs' =>
      if Ascii.eqb c "_" then
        match prev with
        | Some p => if is_digit p then drop_underscores (Some c) cs' else None
        | None => None
        end
      else
        let after_underscore :=
          match prev with Some p => Ascii.eqb p "_" | None => false end in
        if after_underscore && negb (is_digit c) then None
        else option_map (cons c) (drop_underscores (Some c) cs')
  end.

Fixpoint span_digits (cs : list ascii) : list ascii * list ascii :=
  match cs with
  | c :: cs' =>
      if is_digit c then
        let '(ds, rest) := span_digits cs' in (c :: ds, rest)
      else ([], cs)
  | [] => ([], [])
  end.

Definition digit_value (c : ascii) : N := N.of_nat (nat_of_ascii c - 48).

Definition digits_value (ds : list ascii) : N :=
  fold_left (fun acc d => (acc * 10 + digit_value d)%N) ds 0%N.

Definition split_sign (cs : list ascii) : bool * list ascii :=
  match cs with
  | c :: cs' =>
      if Ascii.eqb c "-" then (true, cs')
      else if Ascii.eqb c "+" then (false, cs')
      else (false, cs)
  | [] => (false, [])
  end.

(** The exponent part: nothing, or [e] or [E], an optional sign and at
    least one digit, up to the end of the string. *)
Definition parse_exponent (cs : list ascii) : option Z :=
  match cs with
  | [] => Some 0
  | c :: cs' =>
      if Ascii.eqb (lower_char c) "e" then
        let '(neg, body) := split_sign cs' in
        match span_digits body with
        | ((_ :: _) as ds, []) =>
            let v := Z.of_N (digits_value ds) in
            Some (if neg then - v else v)
        | _ => None
        end
      else None
  end.

Definition parse_decimal (neg : bool) (cs : list ascii) : option float :=
  let '(ipart, r1) := span_digits cs in
  let '(fpart, r2) :=
    match r1 with
    | c :: r1' => if Ascii.eqb c "." then span_digits r1' else ([], r1)
    | [] => ([], [])
    end in
  match ipart ++ fpart with
  | [] => None
  | ds =>
      match parse_exponent r2 with
      | Some ex =>
          Some (Float.of_decimal neg (digits_value ds)
                  (ex - Z.of_nat (length fpart)))
      | None => None
      end
  end.

Definition float_of_string (s : string) : option float :=
  match drop_underscores None (strip (list_ascii_of_string s)) with
  | None => None
  | Some cs =>
      let '(neg, body) := split_sign cs in
      let word := string_of_list_ascii (map lower_char body) in
      if String.eqb word "inf" || String.eqb word "infinity" then
        Some (S754_infinity neg)
      else if String.eqb word "nan" then Some S754_nan
      else parse_decimal neg body
  end.

End FloatParse.

(** ** The data of the program

    The JSON-shaped dictionaries of the program, as records.  A number
    read from JSON or from a form is a float; the integer percentages of
    the category form (1 to 100) and the integer [0] that a fresh [spent]
    field holds are the floats of the same value. *)

(** An entry of [config["categories"]]. *)
Record Category := {
  cfg_percentage : float;
  cfg_subcategories : list string
}.

(** An entry of [budget["categories"]] of a month. *)
Record Allocation := {
  percentage : float;
  allocated : float;
  spent : float;
  remaining : float
}.

Record Budget := {
  total_income : float;
  categories : gmap string Allocation;
  fixed_expenses : gmap string float;
  remaining_after_fixed : float
}.

Record Expense := {
  date : string;
  category : string;
  amount : float;
  description : string
}.

(** An entry of [data["months"]]. *)
Record Month := {
  created : string;
  budget : Budget;
  expenses : list Expense
}.

(** [rules]: both tables in the order in which [.items()] yields them. *)
Record Rules := {
  keyword_rules : list (string * string);
  learned_rules : list (string * string)
}.

(** A candidate transaction of the import page.  A value taken from a
    CSV row is a string, or Python's [None] (here [None]) where the row is
    shorter than the header. *)
Record Transaction := {
  trans_description : string;
  trans_amount : float;
  trans_date : option string
}.

(** A row of [csv.DictReader]: column name to value. *)
Abbreviation Row := (gmap string (option string)).

(** [row.get(key, default)] *)
Definition get (row : Row) (key : string) (default : option string) : option string :=
  match row !! key with
  | Some v => v
  | None => default
  end.

(** The built-in rule tables of [load_rules]. *)
Definition default_rules : Rules := {|
  keyword_rules :=
    [ ("WHOLE FOODS", "Necessities"); ("TRADER JOE", "Necessities");
      ("WALMART", "Necessities"); ("TARGET", "Necessities");
      ("STARBUCKS", "Discretionary"); ("CHIPOTLE", "Discretionary");
      ("SHELL", "Necessities"); ("CHEVRON", "Necessities");
      ("UBER", "Necessities"); ("NETFLIX", "Discretionary");
      ("AMAZON", "Discretionary") ];
  learned_rules := []
|}.

(** ** [auto_categorize] *)

(** One of the two [for] loops: the category of the first entry whose
    upper-cased key occurs in [description_upper]. *)
Fixpoint first_rule (description_upper : string) (items : list (string * string)) : option string :=
  match items with
  | [] => None
  | (merchant, category) :: rest =>
      if contains description_upper (upper merchant) then Some category
      else first_rule description_upper rest
  end.

Definition auto_categorize (description : string) (rules : Rules) : option string :=
  let description_upper := upper description in
  match first_rule description_upper (learned_rules rules) with
  | Some category => Some category
  | None => first_rule description_upper (keyword_rules rules)
  end.

(** ** Import CSV: the row filter *)

Inductive exn :=
  | KeyError (key : string)
  | AttributeError.

Inductive row_result :=
  | Skipped
  | Candidate (trans : Transaction)
  | RowError (e : exn).

Definition excluded_types : list string :=
  ["CREDIT"; "DEPOSIT"; "ACH_CREDIT"; "DSLIP"].

(** The body of the loop over the rows.  [.upper()] on the [Type] value
    and [.replace] on the [Amount] value raise [AttributeError] when the
    value is [None]; the first is evaluated before the description is
    tested. *)
Definition parse_row (row : Row) : row_result :=
  let description := get row "Description" (get row "Details" (Some "")) in
  let amount_str := get row "Amount" (Some "0") in
  let date_str := get row "Posting Date" (get row "Date" (Some "")) in
  match get row "Type" (Some "") with
  | None => RowError AttributeError
  | Some type_str =>
      let trans_type := upper type_str in
      match description with
      | None => Skipped
      | Some description =>
          if negb (nonempty description) then Skipped
          else
            match amount_str with
            | None => RowError AttributeError
            | Some amount_str =>
                match FloatParse.float_of_string (remove_commas amount_str) with
                | None => Skipped
                | Some amount_raw =>
                    if Float.geb amount_raw Float.zero then Skipped
                    else if existsb (String.eqb trans_type) excluded_types then Skipped
                    else Candidate {| trans_description := description;
                                      trans_amount := Float.abs amount_raw;
                                      trans_date := date_str |}
                end
            end
      end
  end.

(** The loop over the rows; [transactions] is the list built so far. *)
Fixpoint parse_rows (rows : list Row) (transactions : list Transaction) : exn + list Transaction :=
  match rows with
  | [] => inr transactions
  | row :: rest =>
      match parse_row row with
      | Skipped => parse_rows rest transactions
      | Candidate trans => parse_rows rest (transactions ++ [trans])
      | RowError e => inl e
      end
  end.

(** ** Import CSV: the duplicate check *)

(** The condition of the inner loop. *)
Definition same_expense (existing : Expense) (trans : Transaction) : bool :=
  String.eqb (upper (description existing)) (upper (trans_description trans)) &&
  Float.ltb (Float.abs (Float.sub (amount existing) (trans_amount trans))) Float.cent.

(** The inner loop, which stops at the first hit. *)
Fixpoint is_duplicate (existing_expenses : list Expense) (trans : Transaction) : bool :=
  match existing_expenses with
  | [] => false
  | existing :: rest =>
      if same_expense existing trans then true else is_duplicate rest trans
  end.

(** The outer loop, with the two lists built so far. *)
Fixpoint check_loop (existing_expenses : list Expense) (transactions : list Transaction)
    (duplicates new_transactions : list Transaction) : list Transaction * list Transaction :=
  match transactions with
  | [] => (duplicates, new_transactions)
  | trans :: rest =>
      if is_duplicate existing_expenses trans
      then check_loop existing_expenses rest (duplicates ++ [trans]) new_transactions
      else check_loop existing_expenses rest duplicates (new_transactions ++ [trans])
  end.

Definition check_duplicates (existing_expenses : list Expense) (transactions : list Transaction)
    : list Transaction * list Transaction :=
  check_loop existing_expenses transactions [] [].

(** ** The month as mutable state

    The statements that change [data["months"][current_month]] run in a
    state monad over the month in which an exception carries the state
    reached when it was raised. *)

Inductive outcome (A : Type) :=
  | Ok (m : Month) (a : A)
  | Raise (m : Month) (e : exn).
Arguments Ok {A} m a.
Arguments Raise {A} m e.

Definition M (A : Type) : Type := Month -> outcome A.

#[global] Instance M_ret : MRet M := fun A a m => Ok m a.

#[global] Instance M_bind : MBind M := fun A B f c m =>
  match c m with
  | Ok m' a => f a m'
  | Raise m' e => Raise m' e
  end.

Definition state_of {A} (o : outcome A) : Month :=
  match o with Ok m _ => m | Raise m _ => m end.

Definition set_categories (cats : gmap string Allocation) (b : Budget) : Budget :=
  {| total_income := total_income b; categories := cats;
     fixed_expenses := fixed_expenses b;
     remaining_after_fixed := remaining_after_fixed b |}.

(** [month["expenses"].append(expense)] *)
Definition append_expense (expense : Expense) : M unit := fun m =>
  Ok {| created := created m; budget := budget m;
        expenses := expenses m ++ [expense] |} tt.

(** An update of one field of [month["budget"]["categories"][category]];
    the subscript raises [KeyError] when the plan has no such category. *)
Definition update_category (category : string) (f : Allocation -> Allocation) : M unit := fun m =>
  match categories (budget m) !! category with
  | None => Raise m (KeyError category)
  | Some a =>
      Ok {| created := created m;
            budget := set_categories (<[category := f a]> (categories (budget m))) (budget m);
            expenses := expenses m |} tt
  end.

(** [...[category]["spent"] += amount] *)
Definition add_spent (category : string) (amount : float) : M unit :=
  update_category category (fun a =>
    {| percentage := percentage a; allocated := allocated a;
       spent := Float.add (spent a) amount; remaining := remaining a |}).

(** [...[category]["remaining"] -= amount] *)
Definition sub_remaining (category : string) (amount : float) : M unit :=
  update_category category (fun a =>
    {| percentage := percentage a; allocated := allocated a;
       spent := spent a; remaining := Float.sub (remaining a) amount |}).

(** The three statements that commit an expense, the same on the
    "Add Expense" page and in the import loop. *)
Definition commit (expense : Expense) : M unit :=
  append_expense expense ;;
  add_spent (category expense) (amount expense) ;;
  sub_remaining (category expense) (amount expense).

(** ** Add Expense: the handler of the submitted form

    [now] is the reading of the clock.  The form offers the keys of
    [config["categories"]] and amounts from 0.01 upwards. *)
Definition add_expense (now : string) (category : string) (amount : float) (description : string) : M unit :=
  commit {| date := now; category := category; amount := amount; description := description |}.

(** ** Import CSV: the commit loop *)

Definition in_config (config_categories : gmap string Category) (category : string) : bool :=
  bool_decide (is_Some (config_categories !! category)).

(** One turn of the loop; [imported] is the counter. *)
Definition import_one (config_categories : gmap string Category) (rules : Rules)
    (now : string) (trans : Transaction) (imported : nat) : M nat :=
  match auto_categorize (trans_description trans) rules with
  | Some category =>
      if nonempty category && in_config config_categories category then
        commit {| date := now; category := category;
                  amount := trans_amount trans;
                  description := trans_description trans |} ;;
        mret (S imported)
      else mret imported
  | None => mret imported
  end.

(** The loop over [enumerate(new_transactions)], from index [i] on;
    [now i] is the reading of the clock in turn [i]. *)
Fixpoint import_loop (config_categories : gmap string Category) (rules : Rules)
    (now : nat -> string) (i : nat) (new_transactions : list Transaction)
    (imported : nat) : M nat :=
  match new_transactions with
  | [] => mret imported
  | trans :: rest =>
      imported' ← import_one config_categories rules (now i) trans imported;
      import_loop config_categories rules now (S i) rest imported'
  end.

Record Counts := {
  total : nat;
  duplicates : nat;
  imported : nat;
  unresolved : nat
}.

(** The duplicate check followed by the commit loop, with the figures the
    page shows: the three metrics, the number of imported transactions and
    the number that could not be categorized. *)
Definition import_batch (config_categories : gmap string Category) (rules : Rules)
    (now : nat -> string) (transactions : list Transaction) : M Counts := fun m =>
  let '(dups, new_transactions) := check_duplicates (expenses m) transactions in
  (n ← import_loop config_categories rules now 0 new_transactions 0;
   mret {| total := length transactions; duplicates := length dups;
           imported := n; unresolved := length new_transactions - n |}) m.

(** The page from the uploaded rows on, once the import button is
    pressed: [None] is the stop with "No valid transactions found". *)
Definition import_csv (config_categories : gmap string Category) (rules : Rules)
    (now : nat -> string) (rows : list Row) : M (option Counts) := fun m =>
  match parse_rows rows [] with
  | inl e => Raise m e
  | inr [] => Ok m None
  | inr transactions =>
      (c ← import_batch config_categories rules now transactions; mret (Some c)) m
  end.

(** ** New Month *)

Definition allocate (income : float) (details : Category) : Allocation :=
  let allocation := Float.mul (Float.div (cfg_percentage details) Float.hundred) income in
  {| percentage := cfg_percentage details;
     allocated := Float.round2 allocation;
     spent := Float.zero;
     remaining := Float.round2 allocation |}.

Definition create_budget (config_categories : gmap string Category) (income : float) : Budget :=
  {| total_income := income;
     categories := allocate income <$> config_categories;
     fixed_expenses := ∅;
     remaining_after_fixed := income |}.

(** The handler of the form: [None] when there is no category (the page
    shows an error and creates nothing). *)
Definition new_month (config_categories : gmap string Category) (income : float) (now : string) : option Month :=
  if bool_decide (config_categories = ∅) then None
  else Some {| created := now; budget := create_budget config_categories income; expenses := [] |}.

(** ** New Month: the page

    [months] is [data["months"]].  The handler stores the new month under
    the key typed in the form, whether the key is free or not. *)
Definition new_month_page (config_categories : gmap string Category) (month : string)
    (income : float) (now : string) (months : gmap string Month) : gmap string Month :=
  match new_month config_categories income now with
  | Some m => <[month := m]> months
  | None => months
  end.

(** ** Add Expense and Import CSV: the pages

    Both pages stop unless [data["months"]] has the current month, and
    then change the month in place.  [Stop] is [st.stop()]; [Failed]
    carries [data["months"]] as it is when the exception leaves the
    script. *)
Inductive page_outcome (A : Type) :=
  | Stop
  | Finished (months : gmap string Month) (a : A)
  | Failed (months : gmap string Month) (e : exn).
Arguments Stop {A}.
Arguments Finished {A} months a.
Arguments Failed {A} months e.

Definition on_current_month {A} (current_month : string) (action : M A)
    (months : gmap string Month) : page_outcome A :=
  match months !! current_month with
  | None => Stop
  | Some m =>
      match action m with
      | Ok m' a => Finished (<[current_month := m']> months) a
      | Raise m' e => Failed (<[current_month := m']> months) e
      end
  end.

Definition add_expense_page (config_categories : gmap string Category)
    (current_month now category : string) (amount : float) (description : string)
    (months : gmap string Month) : page_outcome unit :=
  match months !! current_month with
  | None => Stop
  | Some _ =>
      if bool_decide (config_categories = ∅) then Stop
      else on_current_month current_month
             (add_expense now category amount description) months
  end.

Definition import_csv_page (config_categories : gmap string Category) (rules : Rules)
    (current_month : string) (now : nat -> string) (rows : list Row)
    (months : gmap string Month) : page_outcome (option Counts) :=
  on_current_month current_month (import_csv config_categories rules now rows) months.

(** ** Manage Categories *)

Inductive add_category_result :=
  | CategoryExists
  | NameMissing
  | CategoryAdded (config_categories : gmap string Category).

(** The handler of the "Add Category" form: the name is tested against
    the existing categories first and for emptiness second. *)
Definition add_category (new_cat_name : string) (new_cat_pct : float)
    (config_categories : gmap string Category) : add_category_result :=
  if in_config config_categories new_cat_name then CategoryExists
  else if negb (nonempty new_cat_name) then NameMissing
  else CategoryAdded
         (<[new_cat_name := {| cfg_percentage := new_cat_pct;
                               cfg_subcategories := [] |}]> config_categories).

(** [del config["categories"][cat_name]] *)
Definition delete_category (cat_name : string)
    (config_categories : gmap string Category) : exn + gmap string Category :=
  match config_categories !! cat_name with
  | Some _ => inr (delete cat_name config_categories)
  | None => inl (KeyError cat_name)
  end.

(** ** Dashboard: the line of a category *)






(** * Vocabulary of the statements *)

Local Close Scope Z_scope.




(** Two descriptions are equal once in upper case: the test of the
    program. *)
Definition same_text (a b : string) : Prop := upper a = upper b.

(** The amounts differ by less than 0.01, as the program computes it. *)
Definition close_amounts (a b : float) : Prop :=
  Float.ltb (Float.abs (Float.sub a b)) Float.cent = true.

(** The description, the signed amount and the type of a row, as the
    row filter reads them. *)
Definition resolved_description (row : Row) : option string :=
  get row "Description" (get row "Details" (Some "")).

Definition signed_amount (row : Row) : option float :=
  match get row "Amount" (Some "0") with
  | Some amount_str => FloatParse.float_of_string (remove_commas amount_str)
  | None => None
  end.

Definition type_excluded (row : Row) : Prop :=
  exists type_str, get row "Type" (Some "") = Some type_str /\
                   In (upper type_str) excluded_types.

Definition resolved_date (row : Row) : option string :=
  get row "Posting Date" (get row "Date" (Some "")).

(** The import loop commits the transaction: a rule gives it a category
    that is not the empty string and is a key of [config["categories"]]. *)
Definition committable (config_categories : gmap string Category) (rules : Rules)
    (trans : Transaction) : bool :=
  match auto_categorize (trans_description trans) rules with
  | Some category => nonempty category && in_config config_categories category
  | None => false
  end.

(** The amounts of the expenses of the ledger booked on [c], oldest first. *)
Definition amounts_of (c : string) (ledger : list Expense) : list float :=
  map amount (List.filter (fun e => String.eqb (category e) c) ledger).

(** The plan follows the ledger: for each category of the plan, [spent]
    is 0 with the amounts booked on it added one after the other, and
    [remaining] is [allocated] with the same amounts subtracted one after
    the other, each operation rounded as floats are. *)
Definition tracks (m : Month) : Prop :=
  forall c a, categories (budget m) !! c = Some a ->
    spent a = fold_left Float.add (amounts_of c (expenses m)) Float.zero /\
    remaining a = fold_left Float.sub (amounts_of c (expenses m)) (allocated a).

(** The part of the plan that a commit is not meant to touch: the
    percentage and the allocation of each category. *)
Definition plan_shape (m : Month) : gmap string (float * float) :=
  (fun a => (percentage a, allocated a)) <$> categories (budget m).

(** The months the program can hold: a month as "New Month" creates it,
    changed by submitted expense forms and by imports, whether they end
    normally or with an exception. *)
Inductive reachable : Month -> Prop :=
  | reach_new config_categories income now m :
      new_month config_categories income now = Some m -> reachable m
  | reach_add m now category amount description :
      reachable m ->
      reachable (state_of (add_expense now category amount description m))
  | reach_import m config_categories rules now transactions :
      reachable m ->
      reachable (state_of (import_batch config_categories rules now transactions m)).

(** The expense the import loop writes for [trans] at clock reading [ts]. *)
Definition expense_of (ts : string) (category : string) (trans : Transaction) : Expense :=
  {| date := ts; category := category;
     amount := trans_amount trans; description := trans_description trans |}.

Definition with_date (d : option string) (trans : Transaction) : Transaction :=
  {| trans_description := trans_description trans;
     trans_amount := trans_amount trans; trans_date := d |}.

(** The entry of a category after an amount has been booked on it. *)
Definition book (amount : float) (a : Allocation) : Allocation :=
  {| percentage := percentage a; allocated := allocated a;
     spent := Float.add (spent a) amount;
     remaining := Float.sub (remaining a) amount |}.

(** The month with one more expense in its ledger and the plan as it was. *)
Definition appended (expense : Expense) (m : Month) : Month :=
  {| created := created m; budget := budget m;
     expenses := expenses m ++ [expense] |}.

(** The month with one more expense in its ledger and the amount booked
    on the entry [a] of the category of the expense. *)
Definition booked (expense : Expense) (a : Allocation) (m : Month) : Month :=
  {| created := created m;
     budget := set_categories
                 (<[category expense := book (amount expense) a]> (categories (budget m)))
                 (budget m);
     expenses := expenses m ++ [expense] |}.

(** The expenses that the import loop writes, in order, when it runs over
    [new_transactions] from index [i] to the end. *)
Fixpoint committed_expenses (config_categories : gmap string Category) (rules : Rules)
    (now : nat -> string) (i : nat) (new_transactions : list Transaction) : list Expense :=
  match new_transactions with
  | [] => []
  | trans :: rest =>
      match auto_categorize (trans_description trans) rules with
      | Some category =>
          if nonempty category && in_config config_categories category
          then expense_of (now i) category trans ::
               committed_expenses config_categories rules now (S i) rest
          else committed_expenses config_categories rules now (S i) rest
      | None => committed_expenses config_categories rules now (S i) rest
      end
  end.

(** The candidate that the row filter makes of a row, if any. *)
Definition candidate_of (row : Row) : option Transaction :=
  match parse_row row with
  | Candidate trans => Some trans
  | _ => None
  end.

(** The row has a value for every column that the row filter calls a
    method on: the row is not shorter than a header with [Type] or
    [Amount]. *)
Definition complete_row (row : Row) : Prop :=
  get row "Type" (Some "") <> None /\ get row "Amount" (Some "0") <> None.

(** The plan of the month has every category of the configuration. *)
Definition plan_covers (config_categories : gmap string Category) (m : Month) : Prop :=
  forall c, is_Some (config_categories !! c) -> is_Some (categories (budget m) !! c).

(** [data["months"]] when a page has run. *)
Definition months_after {A} (o : page_outcome A) (months : gmap string Month)
    : gmap string Month :=
  match o with
  | Stop => months
  | Finished months' _ => months'
  | Failed months' _ => months'
  end.

(** ** Letter case and substrings, said without [upper] and [contains] *)

(** The text is in ASCII. *)
Definition is_ascii_char (c : ascii) : bool := (nat_of_ascii c <? 128)%nat.

Fixpoint is_ascii (s : string) : bool :=
  match s with
  | EmptyString => true
  | String c s' => is_ascii_char c && is_ascii s'
  end.

Definition is_lower_letter (c : ascii) : bool :=
  let n := nat_of_ascii c in ((97 <=? n) && (n <=? 122))%nat.

Definition is_upper_letter (c : ascii) : bool :=
  let n := nat_of_ascii c in ((65 <=? n) && (n <=? 90))%nat.

(** The same character, or the two cases of one letter: a small letter
    stands 32 places after its capital. *)
Definition same_char_nocase (c d : ascii) : bool :=
  Ascii.eqb c d
  || (is_lower_letter c && (nat_of_ascii d =? nat_of_ascii c - 32)%nat)
  || (is_upper_letter c && (nat_of_ascii d =? nat_of_ascii c + 32)%nat).

(** Two texts of the same length whose characters are the same up to
    the case of the letters. *)
Fixpoint equal_ignoring_case (a b : string) : bool :=
  match a, b with
  | EmptyString, EmptyString => true
  | String c a', String d b' => same_char_nocase c d && equal_ignoring_case a' b'
  | _, _ => false
  end.




(** The 256 characters. *)
Definition all_chars : list ascii := map ascii_of_nat (seq 0 256).

(** ** Rounding to cents, said without [Float.hundredths] *)

(** [k] hundredths is the multiple of 1/100 nearest to [m * 2^e], and the
    even one of the two when [m * 2^e] lies half way between two
    multiples.  A hundred times [m * 2^e] is the fraction [num / den]. *)
Definition nearest_hundredth (m : positive) (e : Z) (k : Z) : Prop :=
  let num := (100 * Zpos m * 2 ^ Z.max e 0)%Z in
  let den := (2 ^ Z.max (- e) 0)%Z in
  (Z.abs (2 * num - 2 * k * den) <= den)%Z /\
  (Z.abs (2 * num - 2 * k * den) = den -> Z.even k = true).

(** [y] is [x] rounded to two decimals: the float nearest to the nearest
    hundredth of the exact value of [x], with the sign of [x]; zeros,
    infinities and NaN are not changed. *)
Definition rounded_to_cents (x y : float) : Prop :=
  match x with
  | S754_finite s m e =>
      exists k, (0 <= k)%Z /\ nearest_hundredth m e k /\
                y = Float.of_decimal s (Z.to_N k) (-2)
  | _ => y = x
  end.

(** * Sample data *)

Module Sample.

Definition category_of (p : Z) : Category :=
  {| cfg_percentage := Float.of_Z p; cfg_subcategories := [] |}.

(** The categories of the end-to-end scenario. *)
Definition config_categories : gmap string Category :=
  <["Necessities" := category_of 60]> (<["Discretionary" := category_of 40]> ∅).

Definition dollars (cents : N) : float := Float.of_decimal false cents (-2).

Definition clock (i : nat) : string := "2026-01-15T10:00:00".

(** The month created for an income of 1000. *)
Definition january : Month :=
  {| created := "2026-01-01T09:00:00";
     budget := create_budget config_categories (Float.of_Z 1000);
     expenses := [] |}.

Definition whole_foods : Transaction :=
  {| trans_description := "WHOLE FOODS #123";
     trans_amount := dollars 4530;
     trans_date := Some "01/14/2026" |}.

Definition corner_shop : Transaction :=
  {| trans_description := "CORNER SHOP";
     trans_amount := dollars 700;
     trans_date := Some "01/14/2026" |}.

(** Two expenses entered by hand. *)
Definition dinner : M unit :=
  add_expense "2026-01-16T20:00:00" "Discretionary" (dollars 4530) "dinner".

Definition cinema : M unit :=
  add_expense "2026-01-17T21:30:00" "Discretionary" (dollars 1999) "cinema".

Definition after_dinner_and_cinema : Month :=
  state_of (cinema (state_of (dinner january))).

(** The configuration after the category Necessities has been deleted
    on the "Manage Categories" page. *)
Definition config_without_necessities : gmap string Category :=
  delete "Necessities" config_categories.

(** The built-in keyword rules and one learned rule, whose key is
    written in mixed case. *)
Definition rules : Rules :=
  {| keyword_rules := keyword_rules default_rules;
     learned_rules := [("Whole Foods", "Groceries")] |}.

(** A ledger with one expense, entered by hand, and a batch of four
    candidates: the same description in capitals with half a cent more,
    the same description in small letters with one cent more, and twice
    another description with the same amount. *)
Definition ledger : list Expense :=
  [ {| date := "2026-01-14T18:30:00"; category := "Necessities";
       amount := dollars 4530; description := "Whole Foods #123" |} ].





(** The sample month after an expense "Corner Shop" of 7.00 has been
    entered by hand. *)
Definition after_corner_shop : Month :=
  state_of (add_expense "2026-01-14T18:30:00" "Discretionary" (dollars 700)
              "Corner Shop" january).

End Sample.

Module Rows.

(** A row of a checking-account export. *)
Definition debit : Row :=
  <["Details" := Some "DEBIT"]> (<["Posting Date" := Some "01/14/2026"]>
  (<["Description" := Some "WHOLE FOODS #123"]> (<["Amount" := Some "-42.10"]>
  (<["Type" := Some "DEBIT"]> ∅)))).

(** A row with a positive amount, written with a thousands separator. *)
Definition salary : Row :=
  <["Posting Date" := Some "01/02/2026"]>
  (<["Description" := Some "PAYROLL"]> (<["Amount" := Some "1,234.56"]>
  (<["Type" := Some "ACH_CREDIT"]> ∅))).

(** A row whose [Description] value is empty and whose [Details] value
    is not. *)
Definition empty_description : Row :=
  <["Description" := Some ""]> (<["Details" := Some "COFFEE SHOP"]>
  (<["Amount" := Some "-5.00"]> (<["Type" := Some "DEBIT"]> ∅))).

(** The same values under a header without a [Description] column. *)
Definition details_only : Row :=
  <["Details" := Some "COFFEE SHOP"]>
  (<["Amount" := Some "-5.00"]> (<["Type" := Some "DEBIT"]> ∅)).

(** A row whose amount is the text [-inf], which [float] accepts. *)
Definition infinite : Row :=
  <["Description" := Some "WALMART"]> (<["Amount" := Some "-inf"]> ∅).

(** A row whose amount is the text [nan], which [float] accepts too. *)
Definition not_a_number : Row :=
  <["Description" := Some "WALMART"]> (<["Amount" := Some "nan"]> ∅).

(** A row of a line shorter than the header: its [Type] value is [None]. *)
Definition short : Row :=
  <["Description" := Some "WHOLE FOODS #123"]> (<["Amount" := Some "-42.10"]>
  (<["Type" := None]> ∅)).

End Rows.

(** Two imports of the one row [row] into the sample month, one after the
    other: the second finds no duplicate and commits the row again. *)
Definition imported_again (row : Row) : Prop :=
  exists m1 c1 m2 c2,
    import_csv Sample.config_categories default_rules Sample.clock [row]
      Sample.january = Ok m1 (Some c1) /\
    imported c1 = 1 /\
    import_csv Sample.config_categories default_rules Sample.clock [row]
      m1 = Ok m2 (Some c2) /\
    duplicates c2 = 0 /\
    imported c2 = 1 /\
    length (expenses m2) = 2.

(** * Properties *)

(** ** Letter case and substrings *)

(** [upper], [contains] and the comparison of two texts in upper case
    are what their names say: the lemmas of this section relate them to
    [upper_case_of], [occurs_in] and [equal_ignoring_case], which are
    written without them.  The facts on single characters are checked on
    all 256 of them. *)

Lemma in_all_chars c : In c all_chars.
Proof.
  unfold all_chars. rewrite <- (ascii_nat_embedding c).
  apply in_map, in_seq. pose proof (nat_ascii_bounded c). lia.
Qed.

Lemma for_all_chars (p : ascii -> ascii -> bool) :
  forallb (fun c => forallb (p c) all_chars) all_chars = true ->
  forall c d, p c d = true.
Proof.
  intros H c d. rewrite forallb_forall in H.
  specialize (H c (in_all_chars c)). rewrite forallb_forall in H.
  apply H, in_all_chars.
Qed.

Lemma same_char_nocase_upper c d :
  same_char_nocase c d = Ascii.eqb (upper_char c) (upper_char d).
Proof.
  apply eqb_prop.
  revert c d. apply for_all_chars. vm_compute. reflexivity.
Qed.


Lemma equal_ignoring_case_upper a b :
  equal_ignoring_case a b = true <-> upper a = upper b.
Proof.
  revert b. induction a as [|c a IH]; intros [|d b]; simpl; try done.
  rewrite andb_true_iff, IH, same_char_nocase_upper, Ascii.eqb_eq.
  split; [by intros [-> ->]|]. by intros [= -> ->].
Qed.





(** ** The categorizer *)





(** ** The duplicate check *)

Lemma same_expense_spec existing trans :
  same_expense existing trans = true <->
  same_text (description existing) (trans_description trans) /\
  close_amounts (amount existing) (trans_amount trans).
Proof.
  unfold same_expense, same_text, close_amounts.
  by rewrite andb_true_iff, String.eqb_eq.
Qed.

Lemma is_duplicate_spec existing_expenses trans :
  is_duplicate existing_expenses trans = true <->
  exists existing, existing ∈ existing_expenses /\
    same_text (description existing) (trans_description trans) /\
    close_amounts (amount existing) (trans_amount trans).
Proof.
  induction existing_expenses as [|e rest IH]; simpl.
  - split; [discriminate|]. intros (x & Hx & _). by apply elem_of_nil in Hx.
  - destruct (same_expense e trans) eqn:He.
    + split; [|done]. intros _. exists e. split; [left|]. by apply same_expense_spec.
    + rewrite IH. split.
      * intros (x & Hx & H). exists x. split; [by right|done].
      * intros (x & Hx & H). apply elem_of_cons in Hx as [->|Hx].
        -- apply same_expense_spec in H. congruence.
        -- by exists x.
Qed.

Lemma check_loop_filter existing_expenses transactions duplicates new_transactions :
  check_loop existing_expenses transactions duplicates new_transactions =
  (duplicates ++ List.filter (is_duplicate existing_expenses) transactions,
   new_transactions ++
     List.filter (fun t => negb (is_duplicate existing_expenses t)) transactions).
Proof.
  revert duplicates new_transactions.
  induction transactions as [|t rest IH]; intros duplicates new_transactions; simpl.
  - by rewrite !app_nil_r.
  - destruct (is_duplicate existing_expenses t); simpl; rewrite IH;
      by rewrite <- ?app_assoc.
Qed.

Lemma check_duplicates_filter existing_expenses transactions :
  check_duplicates existing_expenses transactions =
  (List.filter (is_duplicate existing_expenses) transactions,
   List.filter (fun t => negb (is_duplicate existing_expenses t)) transactions).
Proof. unfold check_duplicates. by rewrite check_loop_filter. Qed.




(** ** The row filter *)

Lemma excluded_types_spec s :
  existsb (String.eqb s) excluded_types = true <-> In s excluded_types.
Proof.
  rewrite existsb_exists. split.
  - intros (x & Hx & E). apply String.eqb_eq in E. by subst.
  - intros H. exists s. split; [done|]. apply String.eqb_refl.
Qed.

(** What [parse_row] does with a row, case by case. *)
Lemma parse_row_cases row :
  match parse_row row with
  | Candidate trans =>
      exists amount_raw,
        signed_amount row = Some amount_raw /\
        Float.geb amount_raw Float.zero = false /\
        ~ type_excluded row /\
        resolved_description row = Some (trans_description trans) /\
        nonempty (trans_description trans) = true /\
        trans_amount trans = Float.abs amount_raw /\
        trans_date trans = resolved_date row
  | Skipped =>
      (exists type_str, get row "Type" (Some "") = Some type_str) /\
      (resolved_description row = None \/
       resolved_description row = Some "" \/
       (exists amount_str, get row "Amount" (Some "0") = Some amount_str /\
          signed_amount row = None) \/
       (exists amount_raw, signed_amount row = Some amount_raw /\
          Float.geb amount_raw Float.zero = true) \/
       type_excluded row)
  | RowError e =>
      e = AttributeError /\
      (get row "Type" (Some "") = None \/ get row "Amount" (Some "0") = None)
  end.
Proof.
  unfold parse_row, signed_amount, type_excluded, resolved_description, resolved_date.
  destruct (get row "Type" (Some "")) as [type_str|] eqn:Ht; [|by auto].
  destruct (get row "Description" _) as [d|] eqn:Hd; [|by eauto].
  destruct d as [|c d]; cbn [nonempty negb]; [by eauto 6|].
  destruct (get row "Amount" (Some "0")) as [amount_str|] eqn:Ha; [|by auto].
  destruct (FloatParse.float_of_string _) as [amount_raw|] eqn:Hp; [|by eauto 10].
  destruct (Float.geb amount_raw Float.zero) eqn:Hge; [by eauto 10|].
  destruct (existsb (String.eqb (upper type_str)) excluded_types) eqn:Hx.
  - apply excluded_types_spec in Hx. split; [by eauto|].
    do 4 right. by exists type_str.
  - exists amount_raw. repeat split; try done.
    intros (type_str' & [= <-] & Hin).
    apply excluded_types_spec in Hin. congruence.
Qed.





(** The claim C8 fails on this row: its [Description] value is empty and
    its [Details] value is not, and the row is skipped; no candidate
    carries the [Details] value. *)
Lemma empty_description_is_skipped :
  Rows.empty_description !! "Description" = Some (Some "") /\
  Rows.empty_description !! "Details" = Some (Some "COFFEE SHOP") /\
  parse_row Rows.empty_description = Skipped /\
  ~ (exists trans, parse_row Rows.empty_description = Candidate trans /\
                   trans_description trans = "COFFEE SHOP").
Proof.
  assert (E : parse_row Rows.empty_description = Skipped) by (vm_compute; reflexivity).
  repeat split; try reflexivity. rewrite E. by intros (trans & H & _).
Qed.

(** C8, amended.  The description of a row is the value of its
    [Description] column whenever the row has that column, empty or not,
    and the value of [Details] (or the empty string) only when it has no
    [Description] column.  A row whose [Type] value is [None] raises
    [AttributeError] before its description is looked at.  A row with a
    [Type] value whose description so resolved is empty or missing is
    skipped; every candidate carries the resolved description, which is
    not empty; and a row with a resolved description that is not empty, a
    negative amount and a type outside the exclusion list is a
    candidate. *)
Theorem description_resolution row :
  (forall v, row !! "Description" = Some v -> resolved_description row = v) /\
  (row !! "Description" = None ->
     resolved_description row = get row "Details" (Some "")) /\
  (get row "Type" (Some "") = None ->
     parse_row row = RowError AttributeError) /\
  (forall type_str,
     get row "Type" (Some "") = Some type_str ->
     resolved_description row = None \/ resolved_description row = Some "" ->
     parse_row row = Skipped) /\
  (forall trans,
     parse_row row = Candidate trans ->
     resolved_description row = Some (trans_description trans) /\
     trans_description trans <> "") /\
  (forall description amount_raw,
     resolved_description row = Some description ->
     description <> "" ->
     signed_amount row = Some amount_raw ->
     Float.geb amount_raw Float.zero = false ->
     ~ type_excluded row ->
     (exists type_str, get row "Type" (Some "") = Some type_str) ->
     exists trans, parse_row row = Candidate trans /\
                   trans_description trans = description).
Proof.
  pose proof (parse_row_cases row) as Hc.
  split; [|split; [|split; [|split; [|split]]]].
  - intros v H. unfold resolved_description, get. by rewrite H.
  - intros H. unfold resolved_description, get at 1. by rewrite H.
  - intros Ht. unfold parse_row. by rewrite Ht.
  - intros type_str Ht Hd. unfold parse_row.
    fold (resolved_description row). rewrite Ht.
    by destruct Hd as [-> | ->].
  - intros trans E. rewrite E in Hc.
    destruct Hc as (a & _ & _ & _ & Hd & Hne & _). split; [done|].
    intros Heq. rewrite Heq in Hne. discriminate.
  - intros d a Hd Hne Ha Hge Hx [type_str Ht].
    destruct (parse_row row) as [|trans|e].
    + destruct Hc as (_ & [H|[H|[H|[H|H]]]]); try congruence;
        destruct H as (x & H1 & H2); congruence.
    + exists trans. split; [done|].
      destruct Hc as (_ & _ & _ & _ & H & _). congruence.
    + destruct Hc as (_ & [H|H]); [congruence|].
      unfold signed_amount in Ha. by rewrite H in Ha.
Qed.

Lemma description_resolution_witness :
  resolved_description Rows.empty_description = Some "" /\
  parse_row Rows.empty_description = Skipped /\
  resolved_description Rows.details_only = Some "COFFEE SHOP" /\
  (exists trans, parse_row Rows.details_only = Candidate trans /\
                 trans_description trans = "COFFEE SHOP") /\
  resolved_description Rows.short = Some "WHOLE FOODS #123" /\
  parse_row Rows.short = RowError AttributeError.
Proof.
  destruct (description_resolution Rows.empty_description) as (H1 & _ & _ & H3 & _).
  destruct (description_resolution Rows.details_only) as (_ & H2 & _ & _ & _ & H5).
  destruct (description_resolution Rows.short) as (H6 & _ & H7 & _).
  split; [|split; [|split; [|split; [|split]]]].
  - exact (H1 (Some "") eq_refl).
  - exact (H3 "DEBIT" eq_refl (or_intror eq_refl)).
  - exact (H2 eq_refl).
  - apply (H5 "COFFEE SHOP" (Float.of_decimal true 500 (-2))).
    + reflexivity.
    + discriminate.
    + vm_compute. reflexivity.
    + reflexivity.
    + intros (type_str & H & Hin). vm_compute in H. injection H as <-.
      vm_compute in Hin. intuition discriminate.
    + by exists "DEBIT".
  - exact (H6 (Some "WHOLE FOODS #123") eq_refl).
  - exact (H7 eq_refl).
Defined.

(** ** Committing an expense *)

(** The two ways in which the three statements of a commit end. *)
Lemma commit_cases expense m :
  match categories (budget m) !! category expense with
  | Some a => commit expense m = Ok (booked expense a m) tt
  | None => commit expense m = Raise (appended expense m) (KeyError (category expense))
  end.
Proof.
  unfold commit, add_spent, sub_remaining, update_category, append_expense.
  unfold mbind, M_bind. simpl.
  destruct (categories (budget m) !! category expense) as [a|] eqn:E; simpl.
  - rewrite lookup_insert_eq. unfold booked, book, set_categories. simpl.
    by rewrite insert_insert_eq.
  - reflexivity.
Qed.

Lemma commit_Ok expense m a :
  categories (budget m) !! category expense = Some a ->
  commit expense m = Ok (booked expense a m) tt.
Proof. intros H. pose proof (commit_cases expense m) as Hc. by rewrite H in Hc. Qed.

Lemma commit_Raise expense m :
  categories (budget m) !! category expense = None ->
  commit expense m = Raise (appended expense m) (KeyError (category expense)).
Proof. intros H. pose proof (commit_cases expense m) as Hc. by rewrite H in Hc. Qed.

Lemma amounts_of_snoc c ledger expense :
  amounts_of c (ledger ++ [expense]) =
  if String.eqb (category expense) c
  then amounts_of c ledger ++ [amount expense]
  else amounts_of c ledger.
Proof.
  unfold amounts_of. rewrite List.filter_app. simpl.
  destruct (String.eqb (category expense) c); simpl.
  - by rewrite map_app.
  - by rewrite app_nil_r.
Qed.

Lemma appended_tracks expense m :
  categories (budget m) !! category expense = None ->
  tracks m -> tracks (appended expense m).
Proof.
  intros Hnone Ht c a Hc. simpl in *.
  rewrite amounts_of_snoc.
  destruct (String.eqb (category expense) c) eqn:E.
  - apply String.eqb_eq in E. congruence.
  - by apply Ht.
Qed.

Lemma booked_tracks expense a0 m :
  categories (budget m) !! category expense = Some a0 ->
  tracks m -> tracks (booked expense a0 m).
Proof.
  intros Hsome Ht c a Hc. simpl in *.
  rewrite amounts_of_snoc.
  destruct (String.eqb (category expense) c) eqn:E.
  - apply String.eqb_eq in E. subst c.
    rewrite lookup_insert_eq in Hc. injection Hc as <-.
    destruct (Ht _ _ Hsome) as [Hs Hr]. simpl.
    rewrite !fold_left_app. simpl. by rewrite <- Hs, <- Hr.
  - apply String.eqb_neq in E.
    rewrite lookup_insert_ne in Hc by done. by apply Ht.
Qed.

Lemma commit_tracks expense m :
  tracks m -> tracks (state_of (commit expense m)).
Proof.
  intros Ht. pose proof (commit_cases expense m) as Hc.
  destruct (categories (budget m) !! category expense) as [a|] eqn:E;
    rewrite Hc; simpl.
  - by apply booked_tracks.
  - by apply appended_tracks.
Qed.

(** ** The import loop *)

Lemma import_one_cases config_categories rules ts trans imported m :
  match auto_categorize (trans_description trans) rules with
  | Some category =>
      if nonempty category && in_config config_categories category then
        match categories (budget m) !! category with
        | Some a =>
            import_one config_categories rules ts trans imported m =
            Ok (booked (expense_of ts category trans) a m) (S imported)
        | None =>
            import_one config_categories rules ts trans imported m =
            Raise (appended (expense_of ts category trans) m) (KeyError category)
        end
      else import_one config_categories rules ts trans imported m = Ok m imported
  | None => import_one config_categories rules ts trans imported m = Ok m imported
  end.
Proof.
  unfold import_one.
  destruct (auto_categorize (trans_description trans) rules) as [c|]; [|done].
  destruct (nonempty c && in_config config_categories c); [|done].
  fold (expense_of ts c trans).
  pose proof (commit_cases (expense_of ts c trans) m) as Hc. simpl in Hc.
  unfold mbind, M_bind.
  destruct (categories (budget m) !! c); by rewrite Hc.
Qed.

Lemma import_one_uncommittable config_categories rules ts trans imported m :
  committable config_categories rules trans = false ->
  import_one config_categories rules ts trans imported m = Ok m imported.
Proof.
  unfold committable. intros H.
  pose proof (import_one_cases config_categories rules ts trans imported m) as Hc.
  destruct (auto_categorize (trans_description trans) rules); [|done].
  by rewrite H in Hc.
Qed.

Lemma import_one_tracks config_categories rules ts trans imported m :
  tracks m ->
  tracks (state_of (import_one config_categories rules ts trans imported m)).
Proof.
  intros Ht.
  pose proof (import_one_cases config_categories rules ts trans imported m) as Hc.
  destruct (auto_categorize (trans_description trans) rules) as [c|];
    [|by rewrite Hc].
  destruct (nonempty c && in_config config_categories c); [|by rewrite Hc].
  destruct (categories (budget m) !! c) eqn:E; rewrite Hc; simpl.
  - by apply booked_tracks.
  - by apply appended_tracks.
Qed.

Lemma import_loop_cons config_categories rules now i trans rest imported m :
  import_loop config_categories rules now i (trans :: rest) imported m =
  match import_one config_categories rules (now i) trans imported m with
  | Ok m' n => import_loop config_categories rules now (S i) rest n m'
  | Raise m' e => Raise m' e
  end.
Proof. reflexivity. Qed.

Lemma import_loop_tracks config_categories rules now new_transactions :
  forall i imported m,
    tracks m ->
    tracks (state_of (import_loop config_categories rules now i new_transactions imported m)).
Proof.
  induction new_transactions as [|trans rest IH]; intros i imported m Ht.
  - done.
  - rewrite import_loop_cons.
    pose proof (import_one_tracks config_categories rules (now i) trans imported m Ht) as H1.
    destruct (import_one _ _ _ _ _ _) as [m' n|m' e]; simpl in *.
    + by apply IH.
    + done.
Qed.

Lemma import_batch_unfold config_categories rules now transactions m :
  import_batch config_categories rules now transactions m =
  let new_transactions :=
    List.filter (fun t => negb (is_duplicate (expenses m) t)) transactions in
  match import_loop config_categories rules now 0 new_transactions 0 m with
  | Ok m' n =>
      Ok m' {| total := length transactions;
               duplicates := length (List.filter (is_duplicate (expenses m)) transactions);
               imported := n;
               unresolved := length new_transactions - n |}
  | Raise m' e => Raise m' e
  end.
Proof.
  unfold import_batch. rewrite check_duplicates_filter. reflexivity.
Qed.

Lemma import_batch_tracks config_categories rules now transactions m :
  tracks m ->
  tracks (state_of (import_batch config_categories rules now transactions m)).
Proof.
  intros Ht. rewrite import_batch_unfold. simpl.
  pose proof (import_loop_tracks config_categories rules now
                (List.filter (fun t => negb (is_duplicate (expenses m) t)) transactions)
                0 0 m Ht) as H.
  by destruct (import_loop _ _ _ _ _ _ _).
Qed.

(** A commit and an import leave the percentages and the allocations
    of the plan as they are, and add no category to it. *)
Lemma commit_shape expense m :
  plan_shape (state_of (commit expense m)) = plan_shape m.
Proof.
  pose proof (commit_cases expense m) as Hc.
  destruct (categories (budget m) !! category expense) as [a|] eqn:E;
    rewrite Hc; [|done].
  unfold plan_shape. simpl. rewrite fmap_insert. apply insert_id.
  by rewrite lookup_fmap, E.
Qed.

Lemma import_one_shape config_categories rules ts trans imported m :
  plan_shape (state_of (import_one config_categories rules ts trans imported m)) =
  plan_shape m.
Proof.
  unfold import_one.
  destruct (auto_categorize (trans_description trans) rules) as [c|]; [|done].
  destruct (nonempty c && in_config config_categories c); [|done].
  unfold mbind, M_bind.
  pose proof (commit_shape (expense_of ts c trans) m) as Hs.
  unfold expense_of in Hs. by destruct (commit _ m).
Qed.

Lemma import_loop_shape config_categories rules now new_transactions :
  forall i imported m,
    plan_shape (state_of (import_loop config_categories rules now i
                            new_transactions imported m)) = plan_shape m.
Proof.
  induction new_transactions as [|trans rest IH]; intros i imported m; [done|].
  rewrite import_loop_cons.
  pose proof (import_one_shape config_categories rules (now i) trans imported m) as H1.
  destruct (import_one _ _ _ _ _ _) as [m1 n1|m1 e1]; simpl in H1.
  - by rewrite IH.
  - done.
Qed.

Lemma import_batch_shape config_categories rules now transactions m :
  plan_shape (state_of (import_batch config_categories rules now transactions m)) =
  plan_shape m.
Proof.
  rewrite import_batch_unfold. cbv zeta.
  pose proof (import_loop_shape config_categories rules now
                (List.filter (fun t => negb (is_duplicate (expenses m) t)) transactions)
                0 0 m) as H.
  by destruct (import_loop _ _ _ _ _ _ _).
Qed.

(** ** New Month *)

Lemma sub_zero x : Float.sub x Float.zero = x.
Proof. by destruct x as [[]|[]| |[] ? ?]. Qed.

Lemma new_month_Some config_categories income now :
  config_categories <> ∅ ->
  new_month config_categories income now =
  Some {| created := now; budget := create_budget config_categories income;
          expenses := [] |}.
Proof. intros H. unfold new_month. by rewrite bool_decide_eq_false_2. Qed.

Lemma new_month_inv config_categories income now m :
  new_month config_categories income now = Some m ->
  m = {| created := now; budget := create_budget config_categories income;
         expenses := [] |}.
Proof. unfold new_month. case_bool_decide; congruence. Qed.

Lemma new_month_tracks config_categories income now m :
  new_month config_categories income now = Some m -> tracks m.
Proof.
  intros H. apply new_month_inv in H. subst m. intros c a Hc. simpl in *.
  rewrite lookup_fmap in Hc.
  destruct (config_categories !! c) as [details|]; [|done].
  by injection Hc as <-.
Qed.

Lemma pow2_pos k : Zpos (2 ^ k)%positive = (2 ^ Zpos k)%Z.
Proof. by rewrite Pos2Z.inj_pow. Qed.

Lemma hundredths_nonneg m e : (0 <= Float.hundredths m e)%Z.
Proof.
  unfold Float.hundredths. destruct e as [|p|p].
  - lia.
  - pose proof (Z.pow_pos_nonneg 2 (Zpos p)). lia.
  - cbv zeta. set (den := Zpos (2 ^ p)%positive).
    assert (0 <= Zpos m * 100 / den)%Z by (apply Z.div_pos; lia).
    destruct (_ ?= _)%Z; [destruct (Z.even _)|..]; lia.
Qed.

Lemma hundredths_nearest m e : nearest_hundredth m e (Float.hundredths m e).
Proof.
  unfold nearest_hundredth, Float.hundredths. destruct e as [|p|p]; cbv zeta.
  - simpl Z.max. rewrite !Z.pow_0_r. split; lia.
  - replace (Z.max (Zpos p) 0) with (Zpos p) by lia.
    replace (Z.max (- Zpos p) 0) with 0%Z by lia.
    rewrite Z.pow_0_r. split; lia.
  - replace (Z.max (Zneg p) 0) with 0%Z by lia.
    replace (Z.max (- Zneg p) 0) with (Zpos p) by lia.
    rewrite Z.pow_0_r, <- pow2_pos.
    set (den := Zpos (2 ^ p)%positive).
    assert (Hden : (0 < den)%Z) by done.
    pose proof (Z.div_mod (Zpos m * 100) den ltac:(lia)) as Hdm.
    pose proof (Z.mod_pos_bound (Zpos m * 100) den Hden) as Hr.
    set (q := (Zpos m * 100 / den)%Z) in *.
    set (r := (Zpos m * 100 mod den)%Z) in *.
    replace (2 * (100 * Zpos m * 1))%Z with (2 * (den * q + r))%Z by lia.
    clearbody q r den.
    destruct (Z.compare_spec (2 * r) den) as [Hc|Hc|Hc].
    + destruct (Z.even q) eqn:Hq.
      * split; [lia|done].
      * split; [lia|]. intros _. rewrite Z.even_add, Hq. done.
    + split; [lia|]. intros E. exfalso. lia.
    + split; [lia|]. intros E. exfalso. lia.
Qed.

Lemma round2_rounded x : rounded_to_cents x (Float.round2 x).
Proof.
  destruct x as [s|s| |s m e]; simpl; try done.
  exists (Float.hundredths m e).
  split; [apply hundredths_nonneg|]. split; [apply hundredths_nearest|done].
Qed.

(** [round(x, 2)] on some values: 740.736, 2.675 (whose float lies below
    the decimal), the ties 0.125 and 0.375, and -0.004. *)
Lemma round2_examples :
  Float.round2 (Float.of_decimal false 740736 (-3)) = Sample.dollars 74074 /\
  Float.round2 (Float.of_decimal false 2675 (-3)) = Sample.dollars 267 /\
  Float.round2 (Float.of_decimal false 125 (-3)) = Sample.dollars 12 /\
  Float.round2 (Float.of_decimal false 375 (-3)) = Sample.dollars 38 /\
  Float.round2 (Float.of_decimal true 4 (-3)) = S754_zero true.
Proof. repeat split; vm_compute; reflexivity. Qed.

(** C2.  When there is at least one category and the income is positive,
    "New Month" creates a month with an empty ledger whose plan has the
    categories of the configuration and, for each of them,
    [allocated = round(percentage / 100 * income, 2)], [spent = 0] and
    [remaining = allocated]; the allocation is the product rounded to
    cents, that is the float nearest to the nearest hundredth of the
    product. *)
Theorem new_month_allocates config_categories income now :
  config_categories <> ∅ ->
  Float.ltb Float.zero income = true ->
  exists m,
    new_month config_categories income now = Some m /\
    expenses m = [] /\
    total_income (budget m) = income /\
    (forall c, is_Some (categories (budget m) !! c) <->
               is_Some (config_categories !! c)) /\
    (forall c details,
       config_categories !! c = Some details ->
       exists a,
         categories (budget m) !! c = Some a /\
         percentage a = cfg_percentage details /\
         allocated a =
           Float.round2
             (Float.mul (Float.div (cfg_percentage details) Float.hundred) income) /\
         rounded_to_cents
           (Float.mul (Float.div (cfg_percentage details) Float.hundred) income)
           (allocated a) /\
         spent a = Float.zero /\
         remaining a = allocated a).
Proof.
  intros Hne _. eexists. split; [by apply new_month_Some|]. simpl.
  split; [done|]. split; [done|]. split.
  - intros c. rewrite lookup_fmap. by rewrite fmap_is_Some.
  - intros c details Hc. exists (allocate income details).
    rewrite lookup_fmap, Hc. simpl.
    split; [done|]. split; [done|]. split; [done|].
    split; [apply round2_rounded|done].
Qed.

Lemma new_month_allocates_witness :
  Sample.config_categories <> ∅ /\
  Float.ltb Float.zero (Sample.dollars 123456) = true /\
  Float.mul (Float.div (Float.of_Z 60) Float.hundred) (Sample.dollars 123456) <>
    Sample.dollars 74074 /\
  exists m a,
    new_month Sample.config_categories (Sample.dollars 123456) "2026-01-01T09:00:00" =
      Some m /\
    categories (budget m) !! "Necessities" = Some a /\
    allocated a = Sample.dollars 74074 /\
    spent a = Float.zero /\
    remaining a = Sample.dollars 74074.
Proof.
  assert (Hne : Sample.config_categories <> ∅).
  { apply (bool_decide_eq_false_1 (Sample.config_categories = ∅)).
    vm_compute. reflexivity. }
  assert (Hpos : Float.ltb Float.zero (Sample.dollars 123456) = true).
  { vm_compute. reflexivity. }
  split; [exact Hne|]. split; [exact Hpos|]. split.
  { vm_compute. discriminate. }
  destruct (new_month_allocates Sample.config_categories (Sample.dollars 123456)
              "2026-01-01T09:00:00" Hne Hpos) as (m & Hm & _ & _ & _ & Hcat).
  destruct (Hcat "Necessities" (Sample.category_of 60))
    as (a & Ha & _ & Hal & _ & Hs & Hr).
  - vm_compute. reflexivity.
  - exists m, a. split; [exact Hm|]. split; [exact Ha|].
    split; [|split; [exact Hs|]].
    + rewrite Hal. vm_compute. reflexivity.
    + rewrite Hr, Hal. vm_compute. reflexivity.
Defined.

(** ** The plan and the ledger *)

(** The claim C1 fails on this run: a month is created for an income of
    1000 with 40 percent for Discretionary, and two expenses of 45.30 and
    19.99 are entered by hand.  Both commits succeed, and afterwards
    [remaining] is not [allocated - spent]: the two differ in the last
    bit. *)
Lemma remaining_drifts :
  new_month Sample.config_categories (Float.of_Z 1000) "2026-01-01T09:00:00"
    = Some Sample.january /\
  exists m a,
    (Sample.dinner ;; Sample.cinema) Sample.january = Ok m tt /\
    categories (budget m) !! "Discretionary" = Some a /\
    Float.eqb (remaining a) (Float.sub (allocated a) (spent a)) = false /\
    remaining a <> Float.sub (allocated a) (spent a).
Proof.
  split; [vm_compute; reflexivity|].
  eexists _, _. split; [vm_compute; reflexivity|].
  split; [vm_compute; reflexivity|].
  split; [vm_compute; reflexivity|].
  vm_compute. discriminate.
Qed.

(** C1, amended.  In every month that the program reaches, from the
    creation of its plan on and after every expense form and every
    import, each category of the plan has [spent] equal to 0 plus the
    amounts booked on it, added in ledger order, and [remaining] equal to
    [allocated] minus the same amounts, subtracted in ledger order, every
    operation being a float operation; hence [remaining] is
    [allocated - spent] for every category on which nothing is booked yet,
    as it is right after the creation of the plan.  An expense form and an
    import change neither the allocation nor the percentage of a
    category. *)
Theorem plan_tracks_ledger m :
  reachable m ->
  tracks m /\
  (forall c a,
     categories (budget m) !! c = Some a ->
     amounts_of c (expenses m) = [] ->
     remaining a = Float.sub (allocated a) (spent a)) /\
  (forall now category amount description,
     plan_shape (state_of (add_expense now category amount description m)) =
     plan_shape m) /\
  (forall config_categories rules now transactions,
     plan_shape (state_of (import_batch config_categories rules now transactions m)) =
     plan_shape m).
Proof.
  intros Hr.
  assert (Ht : tracks m).
  { induction Hr.
    - by eapply new_month_tracks.
    - by apply commit_tracks.
    - by apply import_batch_tracks. }
  split; [exact Ht|]. split; [|split].
  - intros c a Hc Hnil. destruct (Ht c a Hc) as [Hs Hrem].
    rewrite Hnil in Hs, Hrem. simpl in Hs, Hrem.
    by rewrite Hs, Hrem, sub_zero.
  - intros now c amt d. apply commit_shape.
  - intros cfg rules now txs. apply import_batch_shape.
Qed.

Lemma plan_tracks_ledger_witness :
  reachable Sample.after_dinner_and_cinema /\
  exists a,
    categories (budget Sample.after_dinner_and_cinema) !! "Discretionary" = Some a /\
    spent a =
      Float.add (Float.add Float.zero (Sample.dollars 4530)) (Sample.dollars 1999) /\
    remaining a =
      Float.sub (Float.sub (allocated a) (Sample.dollars 4530)) (Sample.dollars 1999).
Proof.
  assert (Hr : reachable Sample.after_dinner_and_cinema).
  { apply reach_add. apply reach_add.
    apply (reach_new Sample.config_categories (Float.of_Z 1000) "2026-01-01T09:00:00").
    vm_compute. reflexivity. }
  split; [exact Hr|].
  destruct (plan_tracks_ledger _ Hr) as [Ht _].
  assert (Hl : exists a,
             categories (budget Sample.after_dinner_and_cinema) !! "Discretionary" = Some a).
  { vm_compute. eexists. reflexivity. }
  destruct Hl as [a Ha]. exists a. split; [exact Ha|].
  exact (Ht "Discretionary" a Ha).
Defined.

(** ** Errors of a commit *)

(** The claim C5 fails on these inputs.  An expense of -5 on a category of
    the plan is committed like any other: no error is raised.  And with
    the category Necessities deleted from the configuration, the import
    loop passes over a transaction that the rules put in Necessities,
    although the plan of the month has that category. *)
Lemma commit_checks_nothing :
  (exists m',
     add_expense "2026-01-16T20:00:00" "Necessities" (Float.of_Z (-5)) "refund"
       Sample.january = Ok m' tt) /\
  Float.geb Float.zero (Float.of_Z (-5)) = true /\
  is_Some (categories (budget Sample.january) !! "Necessities") /\
  auto_categorize (trans_description Sample.whole_foods) default_rules
    = Some "Necessities" /\
  import_one Sample.config_without_necessities default_rules "2026-01-15T10:00:00"
    Sample.whole_foods 0 Sample.january = Ok Sample.january 0.
Proof.
  split; [eexists; vm_compute; reflexivity|].
  split; [vm_compute; reflexivity|].
  split; [vm_compute; by eexists|].
  split; vm_compute; reflexivity.
Qed.

(** C5, amended.  A commit on a category that the plan of the month does
    not have raises [KeyError], on the manual path and, for a category
    that passes the test of the import loop, on the import path; the
    exception is raised when the ledger already holds the new expense and
    before [spent] or [remaining] change.  The commit tests nothing else:
    on a category of the plan it succeeds for every amount.  The import
    loop tests the category against the categories of the configuration:
    a transaction whose category is the empty string or is not among them
    is passed over without an error. *)
Theorem commit_raises_KeyError m :
  (forall now category amount description,
     categories (budget m) !! category = None ->
     add_expense now category amount description m =
     Raise (appended {| date := now; category := category; amount := amount;
                        description := description |} m)
           (KeyError category)) /\
  (forall config_categories rules now trans imported category,
     auto_categorize (trans_description trans) rules = Some category ->
     nonempty category = true ->
     in_config config_categories category = true ->
     categories (budget m) !! category = None ->
     import_one config_categories rules now trans imported m =
     Raise (appended (expense_of now category trans) m) (KeyError category)) /\
  (forall now category amount description a,
     categories (budget m) !! category = Some a ->
     add_expense now category amount description m =
     Ok (booked {| date := now; category := category; amount := amount;
                   description := description |} a m) tt) /\
  (forall config_categories rules now trans imported category,
     auto_categorize (trans_description trans) rules = Some category ->
     nonempty category && in_config config_categories category = false ->
     import_one config_categories rules now trans imported m = Ok m imported).
Proof.
  split; [|split; [|split]].
  - intros now c amt d H. unfold add_expense. by rewrite commit_Raise.
  - intros cfg rules now trans imported c Hc Hne Hin Hnone.
    pose proof (import_one_cases cfg rules now trans imported m) as H.
    by rewrite Hc, Hne, Hin, Hnone in H.
  - intros now c amt d a H. unfold add_expense. by rewrite (commit_Ok _ _ a).
  - intros cfg rules now trans imported c Hc Hin.
    pose proof (import_one_cases cfg rules now trans imported m) as H.
    by rewrite Hc, Hin in H.
Qed.

Lemma commit_raises_KeyError_witness :
  add_expense "2026-01-16T20:00:00" "Savings" (Sample.dollars 5000) "transfer"
    Sample.january =
  Raise (appended {| date := "2026-01-16T20:00:00"; category := "Savings";
                     amount := Sample.dollars 5000; description := "transfer" |}
                  Sample.january)
        (KeyError "Savings") /\
  import_one Sample.config_without_necessities default_rules "2026-01-15T10:00:00"
    Sample.whole_foods 0 Sample.january = Ok Sample.january 0.
Proof.
  destruct (commit_raises_KeyError Sample.january) as (H1 & _ & _ & H4).
  split.
  - apply H1. vm_compute. reflexivity.
  - apply (H4 _ _ _ _ _ "Necessities"); vm_compute; reflexivity.
Defined.

(** ** What the import loop writes *)

Lemma committed_expenses_cons config_categories rules now i trans rest :
  committed_expenses config_categories rules now i (trans :: rest) =
  match auto_categorize (trans_description trans) rules with
  | Some category =>
      if committable config_categories rules trans
      then expense_of (now i) category trans ::
           committed_expenses config_categories rules now (S i) rest
      else committed_expenses config_categories rules now (S i) rest
  | None => committed_expenses config_categories rules now (S i) rest
  end.
Proof.
  unfold committable. simpl.
  by destruct (auto_categorize (trans_description trans) rules).
Qed.

(** The ledger after the loop is the ledger before it followed by
    expenses that the loop writes; all of them when the loop ends
    normally, with the counter raised by their number. *)
Lemma import_loop_expenses config_categories rules now new_transactions :
  forall i imported m,
    exists es,
      expenses (state_of (import_loop config_categories rules now i
                            new_transactions imported m)) = expenses m ++ es /\
      es `prefix_of` committed_expenses config_categories rules now i new_transactions /\
      (forall m' n,
         import_loop config_categories rules now i new_transactions imported m = Ok m' n ->
         es = committed_expenses config_categories rules now i new_transactions /\
         n = imported + length es).
Proof.
  induction new_transactions as [|trans rest IH]; intros i imported m.
  - exists []. simpl. rewrite app_nil_r. split; [done|]. split; [done|].
    intros m1 n1 [= <- <-]. by rewrite Nat.add_0_r.
  - rewrite import_loop_cons, committed_expenses_cons.
    pose proof (import_one_cases config_categories rules (now i) trans imported m) as Hc.
    unfold committable.
    destruct (auto_categorize (trans_description trans) rules) as [c|];
      [|rewrite Hc; apply IH].
    destruct (nonempty c && in_config config_categories c); [|rewrite Hc; apply IH].
    destruct (categories (budget m) !! c) as [a|]; rewrite Hc.
    + destruct (IH (S i) (S imported) (booked (expense_of (now i) c trans) a m))
        as (es & He & Hp & Hok).
      exists (expense_of (now i) c trans :: es). simpl in He. split; [|split].
      * rewrite He. by rewrite <- app_assoc.
      * by apply prefix_cons.
      * intros m1 n1 H. destruct (Hok m1 n1 H) as [-> ->]. split; [done|].
        simpl. lia.
    + exists [expense_of (now i) c trans]. simpl. split; [done|]. split.
      * apply prefix_cons, prefix_nil.
      * discriminate.
Qed.

Lemma committed_expenses_dates config_categories rules now new_transactions :
  forall i,
    Forall (fun e => exists j, i <= j < i + length new_transactions /\ date e = now j)
      (committed_expenses config_categories rules now i new_transactions).
Proof.
  induction new_transactions as [|trans rest IH]; intros i; [constructor|].
  assert (Hrest : Forall (fun e => exists j,
              i <= j < i + length (trans :: rest) /\ date e = now j)
            (committed_expenses config_categories rules now (S i) rest)).
  { eapply Forall_impl; [apply IH|]. intros e (j & Hj & Hd). exists j.
    simpl. split; [lia|done]. }
  rewrite committed_expenses_cons.
  destruct (auto_categorize (trans_description trans) rules) as [c|]; [|done].
  destruct (committable config_categories rules trans); [|done].
  constructor; [|done]. exists i. simpl. split; [lia|done].
Qed.

Lemma committed_expenses_categorized config_categories rules now new_transactions :
  forall i,
    Forall (fun e => auto_categorize (description e) rules = Some (category e))
      (committed_expenses config_categories rules now i new_transactions).
Proof.
  induction new_transactions as [|trans rest IH]; intros i; [constructor|].
  rewrite committed_expenses_cons.
  destruct (auto_categorize (trans_description trans) rules) as [c|] eqn:E;
    [|by apply IH].
  destruct (committable config_categories rules trans); [|by apply IH].
  constructor; [done|by apply IH].
Qed.

Lemma committed_expenses_length config_categories rules now new_transactions :
  forall i,
    length (committed_expenses config_categories rules now i new_transactions) =
    length (List.filter (committable config_categories rules) new_transactions).
Proof.
  induction new_transactions as [|trans rest IH]; intros i; [done|].
  rewrite committed_expenses_cons. simpl.
  destruct (committable config_categories rules trans) eqn:Hc.
  - unfold committable in Hc.
    destruct (auto_categorize (trans_description trans) rules); [|done].
    simpl. by rewrite IH.
  - destruct (auto_categorize (trans_description trans) rules); by rewrite IH.
Qed.

Lemma committed_expenses_covers config_categories rules now new_transactions :
  forall i trans,
    In trans new_transactions ->
    committable config_categories rules trans = true ->
    exists e,
      In e (committed_expenses config_categories rules now i new_transactions) /\
      description e = trans_description trans /\
      amount e = trans_amount trans.
Proof.
  induction new_transactions as [|t rest IH]; intros i trans Hin Hc; [done|].
  rewrite committed_expenses_cons.
  destruct Hin as [->|Hin].
  - rewrite Hc. unfold committable in Hc.
    destruct (auto_categorize (trans_description trans) rules) as [c|]; [|done].
    exists (expense_of (now i) c trans). split; [by left|done].
  - destruct (IH (S i) trans Hin Hc) as (e & He & Hd).
    exists e. split; [|done].
    destruct (auto_categorize (trans_description t) rules); [|done].
    destruct (committable config_categories rules t); [by right|done].
Qed.

Lemma filter_length_complement {A} (p : A -> bool) (l : list A) :
  length (List.filter p l) + length (List.filter (fun x => negb (p x)) l) = length l.
Proof.
  induction l as [|x l IH]; [done|]. simpl.
  destruct (p x); simpl; lia.
Qed.

Lemma import_loop_app config_categories rules now before after :
  forall i imported m,
    import_loop config_categories rules now i (before ++ after) imported m =
    (n ← import_loop config_categories rules now i before imported;
     import_loop config_categories rules now (i + length before) after n) m.
Proof.
  unfold mbind, M_bind.
  induction before as [|t before IH]; intros i imported m.
  - simpl. by rewrite Nat.add_0_r.
  - change ((t :: before) ++ after) with (t :: (before ++ after)).
    rewrite !import_loop_cons.
    destruct (import_one _ _ _ _ _ _) as [m1 n1|m1 e1]; [|done].
    rewrite IH. simpl length. by rewrite Nat.add_succ_r.
Qed.

Lemma import_loop_uncommittable config_categories rules now new_transactions :
  forall i imported m,
    Forall (fun t => committable config_categories rules t = false) new_transactions ->
    import_loop config_categories rules now i new_transactions imported m = Ok m imported.
Proof.
  induction new_transactions as [|t rest IH]; intros i imported m H; [done|].
  inversion H; subst. rewrite import_loop_cons.
  rewrite import_one_uncommittable by done. by apply IH.
Qed.

(** ** Transactions without a category *)

(** The claim C9 fails on this import: no rule matches "CORNER SHOP", but
    the ledger holds an expense "Corner Shop" of the same amount, entered
    by hand, so the transaction is counted as a duplicate and the count of
    transactions without a category is 0. *)
Lemma unmatched_duplicate_is_not_unresolved :
  auto_categorize (trans_description Sample.corner_shop) default_rules = None /\
  is_duplicate (expenses Sample.after_corner_shop) Sample.corner_shop = true /\
  exists c,
    import_batch Sample.config_categories default_rules Sample.clock
      [Sample.corner_shop] Sample.after_corner_shop =
      Ok Sample.after_corner_shop c /\
    total c = 1 /\ duplicates c = 1 /\ imported c = 0 /\ unresolved c = 0.
Proof.
  split; [vm_compute; reflexivity|]. split; [vm_compute; reflexivity|].
  eexists. split; [vm_compute; reflexivity|]. repeat split.
Qed.

(** C9, amended.  A transaction whose description no rule matches is
    passed over by the import loop: its turn ends normally and leaves the
    month and the counter of imports as they were, so the loop over a
    batch is the loop over the transactions before it followed by the
    loop over those after it.  At the end of an import such a transaction
    of the batch is counted with the duplicates, and not with the
    transactions without a category, when the ledger held an expense like
    it before the import; otherwise it is counted with the transactions
    without a category.  In both cases no expense added to the ledger
    carries its description. *)
Theorem unresolved_transaction_skipped config_categories rules now trans :
  auto_categorize (trans_description trans) rules = None ->
  (forall ts imported m,
     import_one config_categories rules ts trans imported m = Ok m imported) /\
  (forall before after i imported m,
     import_loop config_categories rules now i (before ++ trans :: after) imported m =
     (n ← import_loop config_categories rules now i before imported;
      import_loop config_categories rules now (S (i + length before)) after n) m) /\
  (forall transactions m m' c,
     import_batch config_categories rules now transactions m = Ok m' c ->
     let dups := List.filter (is_duplicate (expenses m)) transactions in
     let new_transactions :=
       List.filter (fun t => negb (is_duplicate (expenses m) t)) transactions in
     let uncategorized :=
       List.filter (fun t => negb (committable config_categories rules t))
         new_transactions in
     duplicates c = length dups /\
     unresolved c = length uncategorized /\
     imported c + unresolved c = length new_transactions /\
     (In trans transactions ->
        (is_duplicate (expenses m) trans = true ->
           In trans dups /\ ~ In trans uncategorized) /\
        (is_duplicate (expenses m) trans = false ->
           In trans uncategorized /\ ~ In trans dups)) /\
     exists es,
       expenses m' = expenses m ++ es /\
       Forall (fun e => description e <> trans_description trans) es).
Proof.
  intros Hnone.
  assert (Hunc : committable config_categories rules trans = false).
  { unfold committable. by rewrite Hnone. }
  split; [|split].
  - intros ts imported m. by apply import_one_uncommittable.
  - intros before after i imported m. rewrite import_loop_app.
    unfold mbind, M_bind.
    destruct (import_loop config_categories rules now i before imported m)
      as [m1 n1|m1 e1]; [|done].
    by rewrite import_loop_cons, import_one_uncommittable.
  - intros transactions m m' c Hb dups new_transactions uncategorized.
    rewrite import_batch_unfold in Hb. cbv zeta in Hb.
    fold new_transactions in Hb. fold dups in Hb.
    destruct (import_loop_expenses config_categories rules now new_transactions 0 0 m)
      as (es & He & _ & Hok).
    destruct (import_loop config_categories rules now 0 new_transactions 0 m)
      as [m1 n1|m1 e1] eqn:El; [|done].
    injection Hb as <- <-. simpl.
    destruct (Hok m1 n1 eq_refl) as [Hes Hn]. simpl in Hn.
    assert (Hlen : n1 = length (List.filter (committable config_categories rules)
                                  new_transactions)).
    { rewrite Hn, Hes. apply committed_expenses_length. }
    pose proof (filter_length_complement (committable config_categories rules)
                  new_transactions) as Hsum.
    fold uncategorized in Hsum.
    split; [done|]. split; [lia|]. split; [lia|]. split.
    + intros Hin. split; intros Hd.
      * split; [apply List.filter_In; by rewrite Hd|].
        intros Hu. apply List.filter_In in Hu as [Hu _].
        apply List.filter_In in Hu as [_ Hu]. by rewrite Hd in Hu.
      * split.
        -- apply List.filter_In. rewrite Hunc. split; [|done].
           apply List.filter_In. by rewrite Hd.
        -- intros Hu. apply List.filter_In in Hu as [_ Hu]. congruence.
    + exists es. split; [exact He|]. rewrite Hes.
      eapply Forall_impl;
        [apply (committed_expenses_categorized config_categories rules now)|].
      intros e Hcat Hd. simpl in Hcat. rewrite Hd in Hcat. congruence.
Qed.

Lemma unresolved_transaction_skipped_witness :
  auto_categorize (trans_description Sample.corner_shop) default_rules = None /\
  import_one Sample.config_categories default_rules "2026-01-15T10:00:00"
    Sample.corner_shop 0 Sample.january = Ok Sample.january 0 /\
  exists m' c,
    import_batch Sample.config_categories default_rules Sample.clock
      [Sample.whole_foods; Sample.corner_shop] Sample.january = Ok m' c /\
    imported c = 1 /\ unresolved c = 1 /\ duplicates c = 0 /\
    length (expenses m') = 1.
Proof.
  assert (H : auto_categorize (trans_description Sample.corner_shop) default_rules = None).
  { vm_compute. reflexivity. }
  split; [exact H|].
  destruct (unresolved_transaction_skipped Sample.config_categories default_rules
              Sample.clock Sample.corner_shop H) as (H1 & _ & H3).
  split; [apply H1|].
  destruct (import_batch Sample.config_categories default_rules Sample.clock
              [Sample.whole_foods; Sample.corner_shop] Sample.january)
    as [m' c|m' e] eqn:E; [|vm_compute in E; discriminate E].
  exists m', c. split; [reflexivity|].
  destruct (H3 _ _ _ _ E) as (Hd & Hu & Hsum & _ & _).
  assert (Hu' : unresolved c = 1) by (rewrite Hu; vm_compute; reflexivity).
  assert (Hd' : duplicates c = 0) by (rewrite Hd; vm_compute; reflexivity).
  assert (Hn : imported c = 1).
  { assert (Hl : length (List.filter
                    (fun t => negb (is_duplicate (expenses Sample.january) t))
                    [Sample.whole_foods; Sample.corner_shop]) = 2)
      by (vm_compute; reflexivity).
    cbv zeta in Hsum. rewrite Hl, Hu' in Hsum. lia. }
  split; [exact Hn|]. split; [exact Hu'|]. split; [exact Hd'|].
  vm_compute in E. injection E as <- _. reflexivity.
Defined.

(** ** The date of an imported expense *)

Lemma is_duplicate_with_date existing_expenses d trans :
  is_duplicate existing_expenses (with_date d trans) =
  is_duplicate existing_expenses trans.
Proof.
  induction existing_expenses as [|e rest IH]; [done|]. simpl.
  by rewrite IH.
Qed.

Lemma filter_map_same {A} (p : A -> bool) (g : A -> A) (l : list A) :
  (forall x, p (g x) = p x) ->
  List.filter p (map g l) = map g (List.filter p l).
Proof.
  intros H. induction l as [|x l IH]; [done|]. simpl.
  rewrite H. destruct (p x); simpl; by rewrite IH.
Qed.

Lemma import_loop_with_date config_categories rules now (f : Transaction -> option string)
    new_transactions :
  forall i imported m,
    import_loop config_categories rules now i
      (map (fun t => with_date (f t) t) new_transactions) imported m =
    import_loop config_categories rules now i new_transactions imported m.
Proof.
  induction new_transactions as [|t rest IH]; intros i imported m; [done|].
  change (map (fun t => with_date (f t) t) (t :: rest))
    with (with_date (f t) t :: map (fun t => with_date (f t) t) rest).
  rewrite !import_loop_cons.
  change (import_one config_categories rules (now i) (with_date (f t) t) imported m)
    with (import_one config_categories rules (now i) t imported m).
  destruct (import_one _ _ _ _ _ _); [apply IH|done].
Qed.

(** C10.  Every expense that an import adds to the ledger has for date a
    reading of the clock taken during the import.  The date of a
    candidate, which the row filter takes from the [Posting Date] or
    [Date] column, has no effect on the import: with any other dates in
    the candidates the import ends in the same way, with the same month
    and the same figures. *)
Theorem import_dates_from_clock config_categories rules now transactions m :
  (exists es,
     expenses (state_of (import_batch config_categories rules now transactions m))
       = expenses m ++ es /\
     Forall (fun e => exists i, i < length transactions /\ date e = now i) es) /\
  (forall f : Transaction -> option string,
     import_batch config_categories rules now
       (map (fun t => with_date (f t) t) transactions) m =
     import_batch config_categories rules now transactions m) /\
  (forall row trans,
     parse_row row = Candidate trans -> trans_date trans = resolved_date row).
Proof.
  split; [|split].
  - rewrite import_batch_unfold. simpl.
    set (new_transactions :=
           List.filter (fun t => negb (is_duplicate (expenses m) t)) transactions).
    destruct (import_loop_expenses config_categories rules now new_transactions 0 0 m)
      as (es & He & [k Hk] & _).
    exists es. split.
    + by destruct (import_loop _ _ _ _ _ _ _).
    + pose proof (committed_expenses_dates config_categories rules now
                    new_transactions 0) as Hd.
      rewrite Hk in Hd. apply Forall_app in Hd as [Hd _].
      eapply Forall_impl; [exact Hd|].
      intros e (j & Hj & Hdate). exists j. split; [|done].
      pose proof (List.filter_length_le
                    (fun t => negb (is_duplicate (expenses m) t)) transactions) as Hle.
      fold new_transactions in Hle. simpl in Hj. lia.
  - intros f. rewrite !import_batch_unfold. simpl.
    rewrite !filter_map_same
      by (intros x; by rewrite is_duplicate_with_date).
    rewrite import_loop_with_date, !length_map. reflexivity.
  - intros row trans H. pose proof (parse_row_cases row) as Hc.
    rewrite H in Hc. by destruct Hc as (a & _ & _ & _ & _ & _ & _ & Hd).
Qed.

Lemma import_dates_from_clock_witness :
  exists m c,
    import_batch Sample.config_categories default_rules Sample.clock
      [Sample.whole_foods] Sample.january = Ok m c /\
    trans_date Sample.whole_foods = Some "01/14/2026" /\
    date <$> expenses m = ["2026-01-15T10:00:00"] /\
    import_batch Sample.config_categories default_rules Sample.clock
      [with_date None Sample.whole_foods] Sample.january = Ok m c.
Proof.
  destruct (import_dates_from_clock Sample.config_categories default_rules
              Sample.clock [Sample.whole_foods] Sample.january) as (_ & H & _).
  specialize (H (fun _ => None)). simpl in H.
  eexists _, _. split; [vm_compute; reflexivity|].
  split; [reflexivity|]. split; [vm_compute; reflexivity|].
  rewrite H. vm_compute. reflexivity.
Defined.

(** ** Importing a batch twice *)

Lemma close_amounts_refl x :
  Float.is_finite x = true -> close_amounts x x.
Proof.
  unfold close_amounts. destruct x as [[]|[]| |s mx ex]; try done.
  intros _. unfold Float.sub, SFsub. rewrite Z.sub_diag. reflexivity.
Qed.

Lemma is_duplicate_app ledger added trans :
  is_duplicate (ledger ++ added) trans =
  is_duplicate ledger trans || is_duplicate added trans.
Proof.
  induction ledger as [|e rest IH]; [done|]. simpl.
  by destruct (same_expense e trans).
Qed.

Lemma is_duplicate_In ledger e trans :
  In e ledger -> same_expense e trans = true -> is_duplicate ledger trans = true.
Proof.
  intros Hin Hs. apply is_duplicate_spec. exists e.
  split; [by apply list_elem_of_In|]. by apply same_expense_spec.
Qed.

(** When the amounts of a batch are finite, a second import of the batch
    into the month that the first import leaves finds every transaction
    that the first import committed among the duplicates, commits nothing
    and leaves the month as it is. *)
Lemma reimport_finite_amounts config_categories rules now now' transactions m m1 c1 :
  Forall (fun t => Float.is_finite (trans_amount t) = true) transactions ->
  import_batch config_categories rules now transactions m = Ok m1 c1 ->
  Forall (fun t => is_duplicate (expenses m1) t = true)
    (List.filter (committable config_categories rules) transactions) /\
  exists c2,
    import_batch config_categories rules now' transactions m1 = Ok m1 c2 /\
    imported c2 = 0 /\
    total c2 = total c1.
Proof.
  intros Hfin H1. rewrite import_batch_unfold in H1. cbv zeta in H1.
  set (new1 := List.filter (fun t => negb (is_duplicate (expenses m) t)) transactions) in *.
  destruct (import_loop_expenses config_categories rules now new1 0 0 m)
    as (es & He & _ & Hok).
  destruct (import_loop config_categories rules now 0 new1 0 m)
    as [m1' n1|m1' e1] eqn:El; [|done].
  injection H1 as <- <-. simpl in He.
  destruct (Hok m1' n1 eq_refl) as [Hes _].
  assert (Hdup : forall t, In t transactions ->
            committable config_categories rules t = true ->
            is_duplicate (expenses m1') t = true).
  { intros t Hin Hc. rewrite He, is_duplicate_app.
    destruct (is_duplicate (expenses m) t) eqn:Hd; [done|]. simpl.
    assert (Hnew : In t new1).
    { unfold new1. apply List.filter_In. split; [done|by rewrite Hd]. }
    destruct (committed_expenses_covers config_categories rules now new1 0 t Hnew Hc)
      as (e & Hine & Hdesc & Hamt).
    rewrite <- Hes in Hine. apply (is_duplicate_In _ e); [done|].
    apply same_expense_spec. split.
    - unfold same_text. by rewrite Hdesc.
    - rewrite Hamt. apply close_amounts_refl.
      rewrite List.Forall_forall in Hfin. by apply Hfin. }
  split.
  - apply List.Forall_forall. intros t Ht. apply List.filter_In in Ht as [Hin Hc].
    by apply Hdup.
  - rewrite import_batch_unfold. cbv zeta.
    rewrite import_loop_uncommittable.
    + eexists. split; [reflexivity|]. by split.
    + apply List.Forall_forall. intros t Ht. apply List.filter_In in Ht as [Hin Hnd].
      destruct (committable config_categories rules t) eqn:Hc; [|done].
      rewrite (Hdup t Hin Hc) in Hnd. discriminate.
Qed.

(** C3, on two batches that the code mishandles.  The row filter takes
    the amount text [-inf] for a negative amount and emits a candidate
    with an infinite amount, and it lets the amount text [nan] through
    because a NaN is not [>= 0].  The first import commits the candidate.
    In the second import of the same row the difference of the two
    amounts is a NaN, the test of the duplicate check fails, and the
    candidate is committed again: no duplicate is found, one transaction
    is imported and the ledger holds the expense twice. *)
Theorem reimport_of_infinite_amount :
  parse_row Rows.infinite =
    Candidate {| trans_description := "WALMART";
                 trans_amount := S754_infinity false;
                 trans_date := Some "" |} /\
  parse_row Rows.not_a_number =
    Candidate {| trans_description := "WALMART";
                 trans_amount := S754_nan;
                 trans_date := Some "" |} /\
  imported_again Rows.infinite /\
  imported_again Rows.not_a_number.
Proof.
  split; [vm_compute; reflexivity|]. split; [vm_compute; reflexivity|].
  split; eexists _, _, _, _;
    (split; [vm_compute; reflexivity|]);
    (split; [reflexivity|]);
    (split; [vm_compute; reflexivity|]);
    (split; [reflexivity|]); split; reflexivity.
Qed.

(** The same import with a finite amount: the second run finds the
    duplicate and imports nothing. *)
Example reimport_whole_foods :
  exists m1 c1 c2,
    import_batch Sample.config_categories default_rules Sample.clock
      [Sample.whole_foods] Sample.january = Ok m1 c1 /\
    imported c1 = 1 /\
    import_batch Sample.config_categories default_rules Sample.clock
      [Sample.whole_foods] m1 = Ok m1 c2 /\
    duplicates c2 = 1 /\ imported c2 = 0.
Proof.
  eexists _, _, _. split; [vm_compute; reflexivity|].
  split; [reflexivity|]. split; [vm_compute; reflexivity|]. by split.
Qed.

(** ** The end-to-end scenario

    Categories Necessities 60 and Discretionary 40 and an income of 1000
    give allocations of 600 and 400.  The import of the row with the
    description WHOLE FOODS #123 and the amount -45.30 books 45.30 on
    Necessities, which leaves 554.70; the import of the same row again
    finds one duplicate and imports nothing. *)
Example end_to_end_scenario :
  let row : Row :=
    <["Description" := Some "WHOLE FOODS #123"]> (<["Amount" := Some "-45.30"]> ∅) in
  allocated <$> categories (budget Sample.january) !! "Necessities"
    = Some (Float.of_Z 600) /\
  allocated <$> categories (budget Sample.january) !! "Discretionary"
    = Some (Float.of_Z 400) /\
  exists m1 c1 c2,
    import_csv Sample.config_categories default_rules Sample.clock [row]
      Sample.january = Ok m1 (Some c1) /\
    imported c1 = 1 /\
    spent <$> categories (budget m1) !! "Necessities" = Some (Sample.dollars 4530) /\
    remaining <$> categories (budget m1) !! "Necessities" = Some (Sample.dollars 55470) /\
    import_csv Sample.config_categories default_rules Sample.clock [row]
      m1 = Ok m1 (Some c2) /\
    duplicates c2 = 1 /\
    imported c2 = 0.
Proof.
  split; [vm_compute; reflexivity|]. split; [vm_compute; reflexivity|].
  eexists _, _, _. split; [vm_compute; reflexivity|].
  split; [reflexivity|]. split; [vm_compute; reflexivity|].
  split; [vm_compute; reflexivity|]. split; [vm_compute; reflexivity|].
  by split.
Qed.

(** * Further properties *)

(** ** The loop over the rows *)

Lemma parse_row_error row e : parse_row row = RowError e -> e = AttributeError.
Proof.
  intros H. pose proof (parse_row_cases row) as Hc. rewrite H in Hc. by destruct Hc.
Qed.

Lemma parse_row_complete row :
  complete_row row -> forall e, parse_row row <> RowError e.
Proof.
  intros [Ht Ha] e H. pose proof (parse_row_cases row) as Hc. rewrite H in Hc.
  destruct Hc as (_ & [Hc|Hc]); congruence.
Qed.

Lemma parse_rows_complete_acc rows :
  Forall complete_row rows ->
  forall transactions,
    parse_rows rows transactions = inr (transactions ++ omap candidate_of rows).
Proof.
  induction 1 as [|row rows Hrow _ IH]; intros transactions; simpl.
  - by rewrite app_nil_r.
  - unfold candidate_of at 1.
    pose proof (parse_row_complete row Hrow) as Hne.
    destruct (parse_row row) as [|trans|e].
    + apply IH.
    + rewrite IH. by rewrite <- app_assoc.
    + by destruct (Hne e).
Qed.

(** X1.  When no row is shorter than the header, the loop over the rows
    raises nothing and returns the candidates of the rows in row order. *)
Theorem parse_rows_in_row_order rows :
  Forall complete_row rows ->
  parse_rows rows [] = inr (omap candidate_of rows).
Proof. intros H. by rewrite parse_rows_complete_acc. Qed.

Lemma parse_rows_in_row_order_witness :
  parse_rows [Rows.salary; Rows.debit; Rows.details_only] [] =
  inr (omap candidate_of [Rows.salary; Rows.debit; Rows.details_only]) /\
  length (omap candidate_of [Rows.salary; Rows.debit; Rows.details_only]) = 2.
Proof.
  split; [|vm_compute; reflexivity].
  apply parse_rows_in_row_order.
  repeat constructor; vm_compute; discriminate.
Defined.

Lemma parse_rows_raises rows row :
  In row rows ->
  (exists e, parse_row row = RowError e) ->
  forall transactions, parse_rows rows transactions = inl AttributeError.
Proof.
  intros Hin He. induction rows as [|r rows IH]; [done|]. intros transactions.
  simpl. destruct (parse_row r) as [|trans|e] eqn:Hr.
  - destruct Hin as [->|Hin]; [|by apply IH].
    destruct He as [e He]. congruence.
  - destruct Hin as [->|Hin]; [|by apply IH].
    destruct He as [e He]. congruence.
  - by rewrite (parse_row_error r e Hr).
Qed.

(** X2.  One row without a value for [Type], as [csv.DictReader] makes of
    a line that is shorter than the header, ends the whole import with
    [AttributeError]: no candidate of any row is imported and the month is
    left as it was. *)
Theorem short_row_aborts_import config_categories rules now rows row m :
  In row rows ->
  get row "Type" (Some "") = None ->
  parse_rows rows [] = inl AttributeError /\
  import_csv config_categories rules now rows m = Raise m AttributeError.
Proof.
  intros Hin Ht.
  assert (H : parse_rows rows [] = inl AttributeError).
  { apply (parse_rows_raises rows row Hin). exists AttributeError.
    unfold parse_row. by rewrite Ht. }
  split; [exact H|]. unfold import_csv. by rewrite H.
Qed.

Lemma short_row_aborts_import_witness :
  let short : Row := <["Description" := Some "WALMART"]> (<["Type" := None]> ∅) in
  import_csv Sample.config_categories default_rules Sample.clock
    [Rows.debit; short] Sample.january = Raise Sample.january AttributeError.
Proof.
  intros short.
  apply (short_row_aborts_import Sample.config_categories default_rules Sample.clock
           [Rows.debit; short] short Sample.january).
  - right. left. reflexivity.
  - reflexivity.
Defined.

(** X3.  The amount of a candidate is greater than 0 or is a NaN; the
    row filter emits no candidate with a zero or a negative amount. *)
Theorem candidate_amount_positive row trans :
  parse_row row = Candidate trans ->
  Float.ltb Float.zero (trans_amount trans) = true \/
  trans_amount trans = Float.nan.
Proof.
  intros H. pose proof (parse_row_cases row) as Hc. rewrite H in Hc.
  destruct Hc as (a & _ & Hge & _ & _ & _ & -> & _).
  destruct a as [s|[]| |[] mx ex]; try done; by auto.
Qed.

Lemma candidate_amount_positive_witness :
  exists trans,
    parse_row Rows.debit = Candidate trans /\
    Float.ltb Float.zero (trans_amount trans) = true.
Proof.
  eexists. split; [vm_compute; reflexivity|].
  destruct (candidate_amount_positive Rows.debit _ eq_refl) as [H|H].
  - exact H.
  - vm_compute in H. discriminate H.
Defined.

Lemma float_of_default_amount :
  FloatParse.float_of_string (remove_commas "0") = Some Float.zero.
Proof. vm_compute. reflexivity. Qed.

(** X4.  A row with a [Type] value is skipped without an error when it
    has no [Amount] column, the amount then counting as 0, and when
    [float] rejects the text of its amount. *)
Theorem bad_amount_is_skipped row :
  get row "Type" (Some "") <> None ->
  row !! "Amount" = None \/
  (exists amount_str,
     row !! "Amount" = Some (Some amount_str) /\
     FloatParse.float_of_string (remove_commas amount_str) = None) ->
  parse_row row = Skipped.
Proof.
  intros Ht Ha. unfold parse_row.
  destruct (get row "Type" (Some "")) as [type_str|]; [|done].
  destruct (get row "Description" _) as [d|]; [|done].
  destruct (negb (nonempty d)); [done|].
  destruct Ha as [Ha|(amount_str & Ha & Hp)]; unfold get at 1; rewrite Ha.
  - by rewrite float_of_default_amount.
  - by rewrite Hp.
Qed.

Lemma bad_amount_is_skipped_witness :
  parse_row (<["Description" := Some "WALMART"]> ∅) = Skipped /\
  parse_row (<["Description" := Some "WALMART"]> (<["Amount" := Some "12,50 EUR"]> ∅))
    = Skipped.
Proof.
  split.
  - apply bad_amount_is_skipped; [discriminate|]. left. reflexivity.
  - apply bad_amount_is_skipped; [discriminate|]. right.
    exists "12,50 EUR". split; vm_compute; reflexivity.
Defined.

(** ** More on the duplicate check *)

Lemma filter_complement_perm {A} (p : A -> bool) (l : list A) :
  List.filter p l ++ List.filter (fun x => negb (p x)) l ≡ₚ l.
Proof.
  induction l as [|x l IH]; [done|]. simpl. destruct (p x); simpl.
  - by constructor.
  - rewrite <- Permutation_middle. by constructor.
Qed.

(** X5.  The duplicate check loses and invents nothing: the duplicates
    and the new transactions together are the candidates, each as often
    as in the batch, and with an empty ledger every candidate is new. *)
Theorem check_duplicates_partitions existing_expenses transactions :
  let '(dups, new_transactions) := check_duplicates existing_expenses transactions in
  dups ++ new_transactions ≡ₚ transactions /\
  length dups + length new_transactions = length transactions /\
  check_duplicates [] transactions = ([], transactions).
Proof.
  rewrite !check_duplicates_filter. split; [apply filter_complement_perm|].
  split; [apply filter_length_complement|].
  clear. induction transactions as [|t l IH]; [done|]. simpl.
  injection IH as IH1 IH2. by rewrite IH1, IH2.
Qed.

(** ** What a commit and an import keep *)

(** A property of the month that the two ends of a commit keep is kept
    by the expense form and by an import, however they end. *)
Section Invariant.

Variable P : Month -> Prop.
Hypothesis P_appended : forall expense m, P m -> P (appended expense m).
Hypothesis P_booked : forall expense a m,
  categories (budget m) !! category expense = Some a -> P m -> P (booked expense a m).

Lemma commit_keeps expense m : P m -> P (state_of (commit expense m)).
Proof.
  intros H. pose proof (commit_cases expense m) as Hc.
  destruct (categories (budget m) !! category expense) eqn:E; rewrite Hc; simpl; auto.
Qed.

Lemma import_one_keeps config_categories rules ts trans imported m :
  P m -> P (state_of (import_one config_categories rules ts trans imported m)).
Proof.
  intros H.
  pose proof (import_one_cases config_categories rules ts trans imported m) as Hc.
  destruct (auto_categorize (trans_description trans) rules) as [c|];
    [|by rewrite Hc].
  destruct (nonempty c && in_config config_categories c); [|by rewrite Hc].
  destruct (categories (budget m) !! c) eqn:E; rewrite Hc; simpl; auto.
Qed.

Lemma import_loop_keeps config_categories rules now new_transactions :
  forall i imported m,
    P m ->
    P (state_of (import_loop config_categories rules now i new_transactions imported m)).
Proof.
  induction new_transactions as [|trans rest IH]; intros i imported m H; [done|].
  rewrite import_loop_cons.
  pose proof (import_one_keeps config_categories rules (now i) trans imported m H) as H1.
  destruct (import_one _ _ _ _ _ _) as [m1 n1|m1 e1]; simpl in H1; [by apply IH|done].
Qed.

Lemma import_batch_keeps config_categories rules now transactions m :
  P m -> P (state_of (import_batch config_categories rules now transactions m)).
Proof.
  intros H. rewrite import_batch_unfold. cbv zeta.
  pose proof (import_loop_keeps config_categories rules now
                (List.filter (fun t => negb (is_duplicate (expenses m) t)) transactions)
                0 0 m H) as H1.
  by destruct (import_loop _ _ _ _ _ _ _).
Qed.

End Invariant.

(** X6.  The ledger only grows at its end: after an expense form and
    after an import, however they end, the ledger before is a prefix of
    the ledger after, and the creation date, the income and the other
    fields of the budget outside the categories are as before. *)
Theorem ledger_only_grows m :
  let kept m' :=
    expenses m `prefix_of` expenses m' /\
    created m' = created m /\
    total_income (budget m') = total_income (budget m) /\
    fixed_expenses (budget m') = fixed_expenses (budget m) /\
    remaining_after_fixed (budget m') = remaining_after_fixed (budget m) in
  (forall now category amount description,
     kept (state_of (add_expense now category amount description m))) /\
  (forall config_categories rules now transactions,
     kept (state_of (import_batch config_categories rules now transactions m))).
Proof.
  intros kept.
  assert (H0 : kept m) by (unfold kept; by repeat split).
  assert (Ha : forall expense m0, kept m0 -> kept (appended expense m0)).
  { intros e m0 (Hp & H). split; [|exact H]. simpl. by apply prefix_app_r. }
  assert (Hb : forall expense a m0,
             categories (budget m0) !! category expense = Some a ->
             kept m0 -> kept (booked expense a m0)).
  { intros e a m0 _ (Hp & H). split; [|exact H]. simpl. by apply prefix_app_r. }
  split.
  - intros now c amt d. by apply (commit_keeps kept Ha Hb).
  - intros cfg rules now txs. by apply (import_batch_keeps kept Ha Hb).
Qed.

(** X7.  A candidate that the duplicate check finds in the ledger is
    still found after any further expense form or import. *)
Theorem duplicates_stay_duplicates m trans :
  is_duplicate (expenses m) trans = true ->
  (forall now category amount description,
     is_duplicate (expenses (state_of (add_expense now category amount description m)))
       trans = true) /\
  (forall config_categories rules now transactions,
     is_duplicate
       (expenses (state_of (import_batch config_categories rules now transactions m)))
       trans = true).
Proof.
  intros Hd.
  destruct (ledger_only_grows m) as [Hadd Himp].
  split.
  - intros now c amt d. destruct (Hadd now c amt d) as [[k ->] _].
    by rewrite is_duplicate_app, Hd.
  - intros cfg rules now txs. destruct (Himp cfg rules now txs) as [[k ->] _].
    by rewrite is_duplicate_app, Hd.
Qed.

Lemma duplicates_stay_duplicates_witness :
  let m := appended (expense_of "2026-01-15T10:00:00" "Necessities" Sample.whole_foods)
             Sample.january in
  is_duplicate (expenses m) Sample.whole_foods = true /\
  is_duplicate (expenses (state_of (Sample.dinner m))) Sample.whole_foods = true.
Proof.
  intros m.
  assert (H : is_duplicate (expenses m) Sample.whole_foods = true)
    by (vm_compute; reflexivity).
  split; [exact H|].
  destruct (duplicates_stay_duplicates m Sample.whole_foods H) as [Hadd _].
  apply Hadd.
Defined.

(** ** The figures of an import *)

(** X8.  When an import ends normally, every candidate is counted once:
    the total is the number of candidates and the sum of the duplicates,
    the imported and the uncategorized transactions, and the ledger is
    longer by the number of imported transactions. *)
Theorem import_counts_add_up config_categories rules now transactions m m' c :
  import_batch config_categories rules now transactions m = Ok m' c ->
  total c = length transactions /\
  total c = duplicates c + imported c + unresolved c /\
  length (expenses m') = length (expenses m) + imported c.
Proof.
  intros H. rewrite import_batch_unfold in H. cbv zeta in H.
  set (new_transactions :=
         List.filter (fun t => negb (is_duplicate (expenses m) t)) transactions) in *.
  destruct (import_loop_expenses config_categories rules now new_transactions 0 0 m)
    as (es & He & _ & Hok).
  destruct (import_loop config_categories rules now 0 new_transactions 0 m)
    as [m1 n1|m1 e1] eqn:El; [|done].
  injection H as <- <-. simpl in *.
  destruct (Hok m1 n1 eq_refl) as [Hes Hn].
  pose proof (committed_expenses_length config_categories rules now new_transactions 0)
    as Hlen.
  pose proof (List.filter_length_le (committable config_categories rules)
                new_transactions) as Hle.
  pose proof (filter_length_complement (is_duplicate (expenses m)) transactions) as Hsum.
  fold new_transactions in Hsum. rewrite <- Hes in Hlen.
  split; [done|]. split; [lia|].
  rewrite He, length_app. lia.
Qed.

Lemma import_counts_add_up_witness :
  exists m' c,
    import_batch Sample.config_categories default_rules Sample.clock
      [Sample.whole_foods; Sample.corner_shop] Sample.january = Ok m' c /\
    total c = 2 /\ imported c = 1 /\ unresolved c = 1 /\
    total c = duplicates c + imported c + unresolved c /\
    length (expenses m') = length (expenses Sample.january) + imported c.
Proof.
  assert (H : exists m' c,
             import_batch Sample.config_categories default_rules Sample.clock
               [Sample.whole_foods; Sample.corner_shop] Sample.january = Ok m' c /\
             total c = 2 /\ imported c = 1 /\ unresolved c = 1).
  { eexists _, _. split; [vm_compute; reflexivity|].
    split; [reflexivity|]. split; reflexivity. }
  destruct H as (m' & c & H & Ht & Hi & Hu).
  destruct (import_counts_add_up _ _ _ _ _ _ _ H) as (_ & Hsum & Hlen).
  exists m', c. split; [exact H|]. split; [exact Ht|]. split; [exact Hi|].
  split; [exact Hu|]. split; [exact Hsum|exact Hlen].
Defined.

(** ** What an import writes *)

Lemma committed_expenses_copy config_categories rules now new_transactions :
  forall i,
    map (fun e => (description e, amount e))
      (committed_expenses config_categories rules now i new_transactions) =
    map (fun t => (trans_description t, trans_amount t))
      (List.filter (committable config_categories rules) new_transactions).
Proof.
  induction new_transactions as [|trans rest IH]; intros i; [done|].
  rewrite committed_expenses_cons. simpl.
  destruct (committable config_categories rules trans) eqn:Hc.
  - unfold committable in Hc.
    destruct (auto_categorize (trans_description trans) rules); [|done].
    simpl. by rewrite IH.
  - destruct (auto_categorize (trans_description trans) rules); by rewrite IH.
Qed.

Lemma committed_expenses_in_config config_categories rules now new_transactions :
  forall i,
    Forall (fun e => in_config config_categories (category e) = true)
      (committed_expenses config_categories rules now i new_transactions).
Proof.
  induction new_transactions as [|trans rest IH]; intros i; [constructor|].
  simpl.
  destruct (auto_categorize (trans_description trans) rules) as [c|]; [|by apply IH].
  destruct (nonempty c && in_config config_categories c) eqn:E; [|by apply IH].
  constructor; [|by apply IH]. simpl. by apply andb_true_iff in E as [_ E].
Qed.

(** X9.  When an import ends normally, the ledger gains one expense for
    each new transaction that the rules put in a category of the
    configuration, in batch order and nothing else; the expense has the
    description and the amount of the transaction, and its category is
    the one [auto_categorize] gives for its description. *)
Theorem import_writes_the_categorized config_categories rules now transactions m m' c :
  import_batch config_categories rules now transactions m = Ok m' c ->
  exists es,
    expenses m' = expenses m ++ es /\
    map (fun e => (description e, amount e)) es =
      map (fun t => (trans_description t, trans_amount t))
        (List.filter (committable config_categories rules)
           (List.filter (fun t => negb (is_duplicate (expenses m) t)) transactions)) /\
    Forall (fun e =>
              auto_categorize (description e) rules = Some (category e) /\
              in_config config_categories (category e) = true) es.
Proof.
  intros H. rewrite import_batch_unfold in H. cbv zeta in H.
  set (new_transactions :=
         List.filter (fun t => negb (is_duplicate (expenses m) t)) transactions) in *.
  destruct (import_loop_expenses config_categories rules now new_transactions 0 0 m)
    as (es & He & _ & Hok).
  destruct (import_loop config_categories rules now 0 new_transactions 0 m)
    as [m1 n1|m1 e1] eqn:El; [|done].
  injection H as <- <-. simpl in He.
  destruct (Hok m1 n1 eq_refl) as [-> _].
  eexists. split; [exact He|]. split; [apply committed_expenses_copy|].
  apply Forall_and. split.
  - apply committed_expenses_categorized.
  - apply committed_expenses_in_config.
Qed.

Lemma import_writes_the_categorized_witness :
  exists m' c es,
    import_batch Sample.config_categories default_rules Sample.clock
      [Sample.corner_shop; Sample.whole_foods] Sample.january = Ok m' c /\
    expenses m' = expenses Sample.january ++ es /\
    map (fun e => (description e, amount e)) es =
      [("WHOLE FOODS #123", Sample.dollars 4530)].
Proof.
  assert (H : exists m' c,
             import_batch Sample.config_categories default_rules Sample.clock
               [Sample.corner_shop; Sample.whole_foods] Sample.january = Ok m' c).
  { eexists _, _. vm_compute. reflexivity. }
  destruct H as (m' & c & H).
  destruct (import_writes_the_categorized _ _ _ _ _ _ _ H) as (es & He & Hm & _).
  exists m', c, es. split; [exact H|]. split; [exact He|].
  rewrite Hm. vm_compute. reflexivity.
Defined.

(** ** Imports that cannot fail *)

Lemma plan_covers_shape config_categories m m' :
  plan_shape m' = plan_shape m ->
  plan_covers config_categories m -> plan_covers config_categories m'.
Proof.
  intros Hs Hc c Hin. specialize (Hc c Hin).
  assert (H : is_Some (plan_shape m' !! c)).
  { rewrite Hs. unfold plan_shape. rewrite lookup_fmap. by apply fmap_is_Some. }
  unfold plan_shape in H. rewrite lookup_fmap in H. by apply fmap_is_Some in H.
Qed.

Lemma import_loop_covered config_categories rules now new_transactions :
  forall i imported m,
    plan_covers config_categories m ->
    exists m' n,
      import_loop config_categories rules now i new_transactions imported m = Ok m' n.
Proof.
  induction new_transactions as [|trans rest IH]; intros i imported m Hc.
  - by eexists _, _.
  - rewrite import_loop_cons.
    pose proof (import_one_cases config_categories rules (now i) trans imported m) as H1.
    pose proof (import_one_shape config_categories rules (now i) trans imported m) as Hs.
    destruct (auto_categorize (trans_description trans) rules) as [c|];
      [|rewrite H1; by apply IH].
    destruct (nonempty c && in_config config_categories c) eqn:E;
      [|rewrite H1; by apply IH].
    apply andb_true_iff in E as [_ E]. unfold in_config in E.
    apply bool_decide_eq_true in E. destruct (Hc c E) as [a Ha].
    rewrite Ha in H1. rewrite H1 in Hs |- *. simpl in Hs.
    apply IH. by eapply plan_covers_shape.
Qed.

(** X10.  An import into a month whose plan has every category of the
    configuration raises no [KeyError]: it ends normally, and the plan of
    the month it leaves still has every category.  The month that "New
    Month" creates has that property for the configuration it is created
    from. *)
Theorem import_into_covering_plan config_categories m :
  plan_covers config_categories m ->
  (forall rules now transactions,
     exists m' c,
       import_batch config_categories rules now transactions m = Ok m' c /\
       plan_covers config_categories m') /\
  (forall income ts m0,
     new_month config_categories income ts = Some m0 ->
     plan_covers config_categories m0).
Proof.
  intros Hc. split.
  - intros rules now txs.
    pose proof (import_batch_shape config_categories rules now txs m) as Hs.
    rewrite import_batch_unfold in Hs |- *. cbv zeta in Hs |- *.
    destruct (import_loop_covered config_categories rules now
                (List.filter (fun t => negb (is_duplicate (expenses m) t)) txs)
                0 0 m Hc) as (m' & n & H).
    rewrite H in Hs |- *. simpl in Hs. eexists _, _. split; [reflexivity|].
    by eapply plan_covers_shape.
  - intros income ts m0 H c Hin. apply new_month_inv in H. subst m0. simpl.
    rewrite lookup_fmap. by apply fmap_is_Some.
Qed.

Lemma import_into_covering_plan_witness :
  plan_covers Sample.config_categories Sample.january /\
  exists m' c,
    import_batch Sample.config_categories default_rules Sample.clock
      [Sample.whole_foods; Sample.corner_shop] Sample.january = Ok m' c.
Proof.
  assert (Hc : plan_covers Sample.config_categories Sample.january).
  { intros c Hin. unfold Sample.january. simpl. rewrite lookup_fmap.
    by apply fmap_is_Some. }
  split; [exact Hc|].
  destruct (import_into_covering_plan _ _ Hc) as [H _].
  destruct (H default_rules Sample.clock [Sample.whole_foods; Sample.corner_shop])
    as (m' & c & Hm & _).
  by exists m', c.
Defined.

(** ** Commits on two categories *)

(** X11.  Two expense forms on two different categories of the plan can
    be submitted in either order: both orders end normally with the same
    budget, and with the same two expenses at the end of the ledger, in
    the order of submission. *)
Theorem commits_on_two_categories_commute m now1 c1 amount1 d1 now2 c2 amount2 d2 :
  c1 <> c2 ->
  is_Some (categories (budget m) !! c1) ->
  is_Some (categories (budget m) !! c2) ->
  let e1 := {| date := now1; category := c1; amount := amount1; description := d1 |} in
  let e2 := {| date := now2; category := c2; amount := amount2; description := d2 |} in
  exists m12 m21,
    (add_expense now1 c1 amount1 d1 ;; add_expense now2 c2 amount2 d2) m = Ok m12 tt /\
    (add_expense now2 c2 amount2 d2 ;; add_expense now1 c1 amount1 d1) m = Ok m21 tt /\
    budget m12 = budget m21 /\
    expenses m12 = expenses m ++ [e1; e2] /\
    expenses m21 = expenses m ++ [e2; e1].
Proof.
  intros Hne [a1 H1] [a2 H2] e1 e2. unfold add_expense, mbind, M_bind.
  fold e1 e2.
  rewrite (commit_Ok e1 m a1 H1), (commit_Ok e2 m a2 H2).
  rewrite (commit_Ok e2 (booked e1 a1 m) a2)
    by (simpl; by rewrite lookup_insert_ne).
  rewrite (commit_Ok e1 (booked e2 a2 m) a1)
    by (simpl; by rewrite lookup_insert_ne).
  eexists _, _. split; [reflexivity|]. split; [reflexivity|].
  simpl. split; [|by rewrite <- !app_assoc].
  unfold set_categories. simpl. f_equal. by apply insert_insert_ne.
Qed.

Lemma commits_on_two_categories_commute_witness :
  exists m12 m21,
    (add_expense "t1" "Necessities" (Sample.dollars 4530) "groceries" ;;
     add_expense "t2" "Discretionary" (Sample.dollars 1999) "cinema") Sample.january
      = Ok m12 tt /\
    (add_expense "t2" "Discretionary" (Sample.dollars 1999) "cinema" ;;
     add_expense "t1" "Necessities" (Sample.dollars 4530) "groceries") Sample.january
      = Ok m21 tt /\
    budget m12 = budget m21.
Proof.
  destruct (commits_on_two_categories_commute Sample.january
              "t1" "Necessities" (Sample.dollars 4530) "groceries"
              "t2" "Discretionary" (Sample.dollars 1999) "cinema")
    as (m12 & m21 & H12 & H21 & Hb & _).
  - discriminate.
  - vm_compute. by eexists.
  - vm_compute. by eexists.
  - by exists m12, m21.
Defined.

(** ** More on the categorizer *)

Lemma upper_char_idempotent c : upper_char (upper_char c) = upper_char c.
Proof. by destruct c as [[] [] [] [] [] [] [] []]. Qed.

Lemma upper_idempotent s : upper (upper s) = upper s.
Proof.
  induction s as [|c s IH]; [done|]. simpl. by rewrite upper_char_idempotent, IH.
Qed.

(** X12.  The categorizer ignores the case of a description in ASCII:
    two descriptions that are the same up to the case of the letters get
    the same category, and a description gets the category of its
    upper-case form. *)
Theorem auto_categorize_ignores_case description description' rules :
  is_ascii description = true ->
  is_ascii description' = true ->
  equal_ignoring_case description description' = true ->
  auto_categorize description rules = auto_categorize description' rules /\
  auto_categorize (upper description) rules = auto_categorize description rules.
Proof.
  intros _ _ H. apply equal_ignoring_case_upper in H.
  unfold auto_categorize. by rewrite H, upper_idempotent.
Qed.

Lemma auto_categorize_ignores_case_witness :
  equal_ignoring_case "Whole Foods #123" "WHOLE FOODS #123" = true /\
  auto_categorize "Whole Foods #123" default_rules = Some "Necessities".
Proof.
  assert (H : equal_ignoring_case "Whole Foods #123" "WHOLE FOODS #123" = true)
    by (vm_compute; reflexivity).
  split; [exact H|].
  destruct (auto_categorize_ignores_case "Whole Foods #123" "WHOLE FOODS #123"
              default_rules eq_refl eq_refl H) as [-> _].
  vm_compute. reflexivity.
Defined.

Lemma first_rule_value description_upper items category :
  first_rule description_upper items = Some category -> In category (map snd items).
Proof.
  induction items as [|[merchant c] rest IH]; [done|]. simpl.
  destruct (contains description_upper (upper merchant)).
  - intros [= <-]. by left.
  - intros H. right. by apply IH.
Qed.

Lemma contains_empty s : contains s "" = true.
Proof. by destruct s. Qed.

Lemma first_rule_empty_key description_upper items category :
  In ("", category) items -> first_rule description_upper items <> None.
Proof.
  induction items as [|[merchant c] rest IH]; [done|]. simpl.
  intros [[= -> ->]|Hin].
  - simpl. by rewrite contains_empty.
  - destruct (contains description_upper (upper merchant)); [done|]. by apply IH.
Qed.

(** X13.  The category that the categorizer returns is a value of one of
    the two rule tables; with two empty tables it returns none; and a rule
    whose key is the empty string applies to every description, so that
    with such a rule in either table no description is left without a
    category. *)
Theorem auto_categorize_edges description rules :
  (forall category,
     auto_categorize description rules = Some category ->
     In category (map snd (learned_rules rules ++ keyword_rules rules))) /\
  (learned_rules rules = [] -> keyword_rules rules = [] ->
     auto_categorize description rules = None) /\
  (forall category,
     In ("", category) (learned_rules rules ++ keyword_rules rules) ->
     auto_categorize description rules <> None).
Proof.
  unfold auto_categorize. split; [|split].
  - intros category. rewrite map_app, in_app_iff.
    destruct (first_rule (upper description) (learned_rules rules)) eqn:E.
    + intros [= <-]. left. by eapply first_rule_value.
    + intros H. right. by eapply first_rule_value.
  - by intros -> ->.
  - intros category Hin. apply in_app_iff in Hin.
    destruct (first_rule (upper description) (learned_rules rules)) eqn:E; [done|].
    destruct Hin as [Hin|Hin].
    + by destruct (first_rule_empty_key (upper description) _ _ Hin).
    + by apply (first_rule_empty_key _ _ category).
Qed.

Lemma auto_categorize_edges_witness :
  auto_categorize "CORNER SHOP"
    {| keyword_rules := keyword_rules default_rules;
       learned_rules := [("", "Discretionary")] |} <> None.
Proof.
  destruct (auto_categorize_edges "CORNER SHOP"
              {| keyword_rules := keyword_rules default_rules;
                 learned_rules := [("", "Discretionary")] |}) as (_ & _ & H).
  apply (H "Discretionary"). left. reflexivity.
Defined.

(** ** New Month: an existing key *)

(** X14.  "New Month" with at least one category stores a month with an
    empty ledger and nothing spent under the key of the form, replacing
    the month and the ledger that the key had, and leaves the other
    months as they are; without a category it changes nothing. *)
Theorem new_month_page_replaces config_categories month income now months :
  (config_categories = ∅ ->
     new_month_page config_categories month income now months = months) /\
  (config_categories <> ∅ ->
     exists m,
       new_month_page config_categories month income now months !! month = Some m /\
       expenses m = [] /\
       created m = now /\
       (forall c a, categories (budget m) !! c = Some a -> spent a = Float.zero) /\
       forall other,
         other <> month ->
         new_month_page config_categories month income now months !! other =
         months !! other).
Proof.
  unfold new_month_page. split.
  - intros ->. done.
  - intros Hne. rewrite new_month_Some by done. eexists.
    split; [apply lookup_insert_eq|]. simpl. split; [done|]. split; [done|].
    split.
    + intros c a. rewrite lookup_fmap.
      destruct (config_categories !! c); [|done]. by intros [= <-].
    + intros other Ho. by apply lookup_insert_ne.
Qed.

Lemma new_month_page_replaces_witness :
  let months : gmap string Month := {[ "2026-01" := Sample.after_dinner_and_cinema ]} in
  length (expenses Sample.after_dinner_and_cinema) = 2 /\
  exists m,
    new_month_page Sample.config_categories "2026-01" (Float.of_Z 1600)
      "2026-01-20T08:00:00" months !! "2026-01" = Some m /\
    expenses m = [].
Proof.
  intros months. split; [vm_compute; reflexivity|].
  destruct (new_month_page_replaces Sample.config_categories "2026-01"
              (Float.of_Z 1600) "2026-01-20T08:00:00" months) as [_ H].
  destruct H as (m & Hm & He & _).
  - apply (bool_decide_eq_false_1 (Sample.config_categories = ∅)).
    vm_compute. reflexivity.
  - exists m. split; [exact Hm|exact He].
Defined.

(** ** The pages and the other months *)

Lemma on_current_month_frame {A} current_month (action : M A) months :
  let months' := months_after (on_current_month current_month action months) months in
  dom months' = dom months /\
  forall other, other <> current_month -> months' !! other = months !! other.
Proof.
  unfold on_current_month.
  destruct (months !! current_month) as [m|] eqn:E; [|done].
  destruct (action m) as [m' a|m' e]; simpl.
  - split; [by apply dom_insert_lookup_L|]. intros other Ho. by apply lookup_insert_ne.
  - split; [by apply dom_insert_lookup_L|]. intros other Ho. by apply lookup_insert_ne.
Qed.

(** X15.  The "Add Expense" page and the "Import CSV" page stop when
    there is no month for the current month key, and otherwise, however
    they end, they create and delete no month and leave every month other
    than the current one as it is. *)
Theorem pages_touch_current_month_only config_categories rules current_month months :
  (months !! current_month = None ->
     (forall now category amount description,
        add_expense_page config_categories current_month now category amount
          description months = Stop) /\
     (forall now rows,
        import_csv_page config_categories rules current_month now rows months = Stop)) /\
  (forall now category amount description,
     let months' :=
       months_after (add_expense_page config_categories current_month now category
                       amount description months) months in
     dom months' = dom months /\
     forall other, other <> current_month -> months' !! other = months !! other) /\
  (forall now rows,
     let months' :=
       months_after (import_csv_page config_categories rules current_month now rows
                       months) months in
     dom months' = dom months /\
     forall other, other <> current_month -> months' !! other = months !! other).
Proof.
  split; [|split].
  - intros H. split.
    + intros. unfold add_expense_page. by rewrite H.
    + intros. unfold import_csv_page, on_current_month. by rewrite H.
  - intros now c amt d. unfold add_expense_page.
    destruct (months !! current_month) eqn:E; [|done].
    case_bool_decide; [done|]. apply on_current_month_frame.
  - intros now rows. apply on_current_month_frame.
Qed.

Lemma pages_touch_current_month_only_witness :
  let months : gmap string Month :=
    <["2026-01" := Sample.january]> {[ "2025-12" := Sample.after_dinner_and_cinema ]} in
  months_after
    (import_csv_page Sample.config_categories default_rules "2026-01" Sample.clock
       [Rows.debit] months) months !! "2025-12" = Some Sample.after_dinner_and_cinema /\
  import_csv_page Sample.config_categories default_rules "2026-02" Sample.clock
    [Rows.debit] months = Stop.
Proof.
  intros months.
  destruct (pages_touch_current_month_only Sample.config_categories default_rules
              "2026-01" months) as (_ & _ & H).
  destruct (pages_touch_current_month_only Sample.config_categories default_rules
              "2026-02" months) as (H0 & _).
  split.
  - destruct (H Sample.clock [Rows.debit]) as [_ Hf].
    rewrite Hf by discriminate. vm_compute. reflexivity.
  - apply H0. vm_compute. reflexivity.
Defined.

(** ** Manage Categories *)

(** X16.  "Add Category" refuses a name that is already a category, then
    an empty name, and changes nothing in either case; otherwise it adds
    the category with the given percentage and no subcategory and leaves
    the other categories as they are, and deleting the new category gives
    the configuration back.  Deleting a category removes it and nothing
    else, and raises [KeyError] for a name that is not a category. *)
Theorem manage_categories_outcomes name pct config_categories :
  match add_category name pct config_categories with
  | CategoryExists => is_Some (config_categories !! name)
  | NameMissing => name = "" /\ config_categories !! name = None
  | CategoryAdded config' =>
      name <> "" /\
      config_categories !! name = None /\
      config' !! name = Some {| cfg_percentage := pct; cfg_subcategories := [] |} /\
      (forall other, other <> name -> config' !! other = config_categories !! other) /\
      delete_category name config' = inr config_categories
  end /\
  match delete_category name config_categories with
  | inl e => e = KeyError name /\ config_categories !! name = None
  | inr config' =>
      is_Some (config_categories !! name) /\
      config' !! name = None /\
      (forall other, other <> name -> config' !! other = config_categories !! other)
  end.
Proof.
  split.
  - unfold add_category, in_config. case_bool_decide as Hin; [done|].
    apply eq_None_not_Some in Hin.
    destruct name as [|ch name]; simpl; [done|].
    split; [done|]. split; [done|]. split; [apply lookup_insert_eq|]. split.
    + intros other Ho. by apply lookup_insert_ne.
    + unfold delete_category. rewrite lookup_insert_eq.
      by rewrite delete_insert_id.
  - unfold delete_category.
    destruct (config_categories !! name) eqn:E; [|done].
    split; [done|]. split; [apply lookup_delete_eq|].
    intros other Ho. by apply lookup_delete_ne.
Qed.

(** ** Categories changed after the month was created *)

(** X17.  The plan of a month is fixed when the month is created.  For a
    category added to the configuration afterwards, the expense form and
    the import loop raise [KeyError] with the expense already in the
    ledger, while a month created from the new configuration has the
    category.  For a category deleted from the configuration afterwards,
    the import loop passes over the transactions that the rules put in it,
    although the plan of the month still has it. *)
Theorem categories_changed_after_creation config_categories income ts m name :
  new_month config_categories income ts = Some m ->
  (forall pct config',
     add_category name pct config_categories = CategoryAdded config' ->
     (forall now amount description,
        add_expense now name amount description m =
        Raise (appended {| date := now; category := name; amount := amount;
                           description := description |} m)
              (KeyError name)) /\
     (forall rules now trans imported,
        auto_categorize (trans_description trans) rules = Some name ->
        import_one config' rules now trans imported m =
        Raise (appended (expense_of now name trans) m) (KeyError name)) /\
     (exists m2, new_month config' income ts = Some m2 /\
                 is_Some (categories (budget m2) !! name))) /\
  (forall config',
     delete_category name config_categories = inr config' ->
     is_Some (categories (budget m) !! name) /\
     forall rules now trans imported,
       auto_categorize (trans_description trans) rules = Some name ->
       import_one config' rules now trans imported m = Ok m imported).
Proof.
  intros Hm. apply new_month_inv in Hm.
  split.
  - intros pct config' Ha. unfold add_category, in_config in Ha.
    case_bool_decide as Hin; [done|]. apply eq_None_not_Some in Hin.
    destruct (nonempty name) eqn:Hne; simpl in Ha; [|done].
    injection Ha as <-.
    assert (Hplan : categories (budget m) !! name = None).
    { subst m. simpl. by rewrite lookup_fmap, Hin. }
    split; [|split].
    + intros now amt d. unfold add_expense. by rewrite commit_Raise.
    + intros rules now trans imported Hc.
      pose proof (import_one_cases
                    (<[name := {| cfg_percentage := pct; cfg_subcategories := [] |}]>
                       config_categories) rules now trans imported m) as H.
      rewrite Hc, Hne, Hplan in H. unfold in_config in H.
      rewrite bool_decide_eq_true_2 in H; [done|].
      rewrite lookup_insert_eq. by eexists.
    + eexists. split.
      * apply new_month_Some. apply insert_non_empty.
      * simpl. rewrite lookup_fmap, lookup_insert_eq. by eexists.
  - intros config' Hd. unfold delete_category in Hd.
    destruct (config_categories !! name) as [d|] eqn:E; [|done].
    injection Hd as <-. split.
    + subst m. simpl. rewrite lookup_fmap, E. by eexists.
    + intros rules now trans imported Hc.
      pose proof (import_one_cases (delete name config_categories) rules now trans
                    imported m) as H.
      rewrite Hc in H. unfold in_config in H.
      rewrite bool_decide_eq_false_2, andb_false_r in H; [done|].
      rewrite lookup_delete_eq. by intros [? ?].
Qed.

Lemma categories_changed_after_creation_witness :
  new_month Sample.config_categories (Float.of_Z 1000) "2026-01-01T09:00:00"
    = Some Sample.january /\
  add_expense "2026-01-16T20:00:00" "Savings" (Sample.dollars 5000) "transfer"
    Sample.january =
  Raise (appended {| date := "2026-01-16T20:00:00"; category := "Savings";
                     amount := Sample.dollars 5000; description := "transfer" |}
                  Sample.january)
        (KeyError "Savings").
Proof.
  assert (Hm : new_month Sample.config_categories (Float.of_Z 1000)
                 "2026-01-01T09:00:00" = Some Sample.january)
    by (vm_compute; reflexivity).
  split; [exact Hm|].
  destruct (categories_changed_after_creation _ _ _ _ "Savings" Hm) as [H _].
  destruct (H (Float.of_Z 10)
              (<["Savings" := {| cfg_percentage := Float.of_Z 10;
                                 cfg_subcategories := [] |}]> Sample.config_categories))
    as (Hadd & _).
  - vm_compute. reflexivity.
  - apply Hadd.
Defined.

(** ** Dashboard: the line of a category *)





(** ** The same transaction twice in a batch *)

(** X19.  A batch that holds the same new transaction twice books it
    twice: when the rules put the transaction in a category of the
    configuration and of the plan, the import ends normally with no
    duplicate and two imports, the ledger gains two expenses that differ
    in their date only, and the amount is added twice to [spent]. *)
Theorem twin_transactions_are_both_imported config_categories rules now trans m c a :
  is_duplicate (expenses m) trans = false ->
  auto_categorize (trans_description trans) rules = Some c ->
  nonempty c = true ->
  in_config config_categories c = true ->
  categories (budget m) !! c = Some a ->
  exists m' counts,
    import_batch config_categories rules now [trans; trans] m = Ok m' counts /\
    duplicates counts = 0 /\
    imported counts = 2 /\
    expenses m' =
      expenses m ++ [expense_of (now 0) c trans; expense_of (now 1) c trans] /\
    spent <$> categories (budget m') !! c =
      Some (Float.add (Float.add (spent a) (trans_amount trans)) (trans_amount trans)).
Proof.
  intros Hd Hc Hne Hin Ha.
  rewrite import_batch_unfold. cbv zeta. cbn [List.filter]. rewrite Hd. cbn [negb].
  rewrite import_loop_cons.
  pose proof (import_one_cases config_categories rules (now 0) trans 0 m) as H1.
  rewrite Hc, Hne, Hin, Ha in H1. simpl in H1. rewrite H1.
  rewrite import_loop_cons.
  set (m1 := booked (expense_of (now 0) c trans) a m).
  assert (Ha1 : categories (budget m1) !! c = Some (book (trans_amount trans) a)).
  { unfold m1. simpl. apply lookup_insert_eq. }
  pose proof (import_one_cases config_categories rules (now 1) trans 1 m1) as H2.
  rewrite Hc, Hne, Hin, Ha1 in H2. cbn [andb] in H2. rewrite H2. simpl.
  eexists _, _. split; [reflexivity|]. simpl. split; [done|]. split; [done|].
  split; [by rewrite <- app_assoc|]. by rewrite lookup_insert_eq.
Qed.

Lemma twin_transactions_are_both_imported_witness :
  exists m' counts,
    import_batch Sample.config_categories default_rules Sample.clock
      [Sample.whole_foods; Sample.whole_foods] Sample.january = Ok m' counts /\
    duplicates counts = 0 /\
    imported counts = 2.
Proof.
  assert (Ha : exists a,
             categories (budget Sample.january) !! "Necessities" = Some a).
  { vm_compute. eexists. reflexivity. }
  destruct Ha as [a Ha].
  destruct (twin_transactions_are_both_imported Sample.config_categories default_rules
              Sample.clock Sample.whole_foods Sample.january "Necessities" a)
    as (m' & counts & H & Hdup & Himp & _).
  - vm_compute. reflexivity.
  - vm_compute. reflexivity.
  - reflexivity.
  - vm_compute. reflexivity.
  - exact Ha.
  - exists m', counts. split; [exact H|]. split; [exact Hdup|exact Himp].
Defined.

(** ** Importing a batch of finite amounts twice *)

Lemma committed_expenses_gate config_categories rules now new_transactions :
  forall i,
    Forall (fun e =>
              auto_categorize (description e) rules = Some (category e) /\
              nonempty (category e) && in_config config_categories (category e) = true)
      (committed_expenses config_categories rules now i new_transactions).
Proof.
  induction new_transactions as [|trans rest IH]; intros i; [constructor|].
  simpl.
  destruct (auto_categorize (trans_description trans) rules) as [c|] eqn:E;
    [|by apply IH].
  destruct (nonempty c && in_config config_categories c) eqn:G; [|by apply IH].
  constructor; [|by apply IH]. by split.
Qed.

(** The outcome of an import that ends normally, in one statement. *)
Lemma import_counts_sum config_categories rules now transactions m m1 c1 :
  import_batch config_categories rules now transactions m = Ok m1 c1 ->
  (exists es,
     expenses m1 = expenses m ++ es /\
     (forall t, In t transactions ->
        is_duplicate (expenses m) t = false ->
        committable config_categories rules t = true ->
        exists e, In e es /\ description e = trans_description t /\
                  amount e = trans_amount t) /\
     Forall (fun e =>
               auto_categorize (description e) rules = Some (category e) /\
               nonempty (category e) && in_config config_categories (category e) = true)
       es) /\
  (total c1 = length transactions /\
   imported c1 =
     length (List.filter (committable config_categories rules)
               (List.filter (fun t => negb (is_duplicate (expenses m) t)) transactions))) /\
  unresolved c1 =
    length (List.filter (fun t => negb (committable config_categories rules t))
              (List.filter (fun t => negb (is_duplicate (expenses m) t)) transactions)) /\
  duplicates c1 = length (List.filter (is_duplicate (expenses m)) transactions).
Proof.
  intros H. rewrite import_batch_unfold in H. cbv zeta in H.
  set (new1 := List.filter (fun t => negb (is_duplicate (expenses m) t)) transactions) in *.
  destruct (import_loop_expenses config_categories rules now new1 0 0 m)
    as (es & He & _ & Hok).
  destruct (import_loop config_categories rules now 0 new1 0 m)
    as [m1' n1|m1' e1] eqn:El; [|done].
  injection H as <- <-. simpl in *.
  destruct (Hok m1' n1 eq_refl) as [Hes Hn].
  pose proof (committed_expenses_length config_categories rules now new1 0) as Hlen.
  rewrite <- Hes in Hlen.
  pose proof (filter_length_complement (committable config_categories rules) new1) as Hsum.
  split; [|split; [|split]].
  - exists es. split; [exact He|]. split.
    + intros t Hin Hd Hc. rewrite Hes.
      apply committed_expenses_covers; [|done].
      unfold new1. apply List.filter_In. split; [done|by rewrite Hd].
    + rewrite Hes. apply committed_expenses_gate.
  - split; [done|lia].
  - lia.
  - done.
Qed.

Lemma same_expense_committable config_categories rules e trans :
  auto_categorize (description e) rules = Some (category e) ->
  nonempty (category e) && in_config config_categories (category e) = true ->
  same_expense e trans = true ->
  committable config_categories rules trans = true.
Proof.
  intros Hc Hg Hs. apply same_expense_spec in Hs as [Ht _].
  unfold same_text in Ht. unfold committable, auto_categorize in *.
  by rewrite <- Ht, Hc.
Qed.

Lemma is_duplicate_false_Forall ledger trans :
  Forall (fun e => same_expense e trans = false) ledger ->
  is_duplicate ledger trans = false.
Proof.
  induction 1 as [|e l He _ IH]; [done|]. simpl. by rewrite He.
Qed.

Lemma filter_filter_andb {A} (p q : A -> bool) (l : list A) :
  List.filter q (List.filter p l) = List.filter (fun x => p x && q x) l.
Proof.
  induction l as [|x l IH]; [done|]. simpl.
  destruct (p x); simpl; [destruct (q x)|]; by rewrite IH.
Qed.

(** X20.  When the amounts of a batch are finite and its import ends
    normally, a second import of the same batch into the month that the
    first one leaves ends normally too, commits nothing and leaves the
    month as it is; its duplicates are the duplicates of the first import
    and the transactions that the first import committed, and the
    transactions without a category are the same as before. *)
Theorem second_import_imports_nothing config_categories rules now now'
    transactions m m1 c1 :
  Forall (fun t => Float.is_finite (trans_amount t) = true) transactions ->
  import_batch config_categories rules now transactions m = Ok m1 c1 ->
  exists c2,
    import_batch config_categories rules now' transactions m1 = Ok m1 c2 /\
    imported c2 = 0 /\
    total c2 = total c1 /\
    duplicates c2 = duplicates c1 + imported c1 /\
    unresolved c2 = unresolved c1.
Proof.
  intros Hfin H1.
  destruct (import_counts_sum config_categories rules now transactions m m1 c1 H1)
    as (Hes & Himp & Hunr & Hdup1).
  destruct Hes as (es & He & Hgate).
  set (dup0 := is_duplicate (expenses m)) in *.
  set (com := committable config_categories rules) in *.
  assert (Hdup : forall t, In t transactions ->
            is_duplicate (expenses m1) t = dup0 t || com t).
  { intros t Hin. rewrite He, is_duplicate_app. fold (dup0 t).
    destruct (dup0 t) eqn:Hd; [done|]. simpl.
    destruct (com t) eqn:Hc.
    - destruct Hgate as [Hcov _]. destruct (Hcov t Hin Hd Hc) as (e & Hine & Hdesc & Hamt).
      apply (is_duplicate_In _ e); [done|]. apply same_expense_spec. split.
      + unfold same_text. by rewrite Hdesc.
      + rewrite Hamt. apply close_amounts_refl.
        rewrite List.Forall_forall in Hfin. by apply Hfin.
    - destruct Hgate as [_ Hg]. apply is_duplicate_false_Forall.
      eapply Forall_impl; [exact Hg|]. intros e [Hcat Hgt]. simpl.
      destruct (same_expense e t) eqn:Hs; [|done].
      pose proof (same_expense_committable config_categories rules e t Hcat Hgt Hs) as Hct.
      fold (com t) in Hct. congruence. }
  assert (Hnew2 : List.filter (fun t => negb (is_duplicate (expenses m1) t)) transactions =
                  List.filter (fun t => negb (com t))
                    (List.filter (fun t => negb (dup0 t)) transactions)).
  { rewrite filter_filter_andb. apply List.filter_ext_in. intros t Hin.
    rewrite (Hdup t Hin). by destruct (dup0 t), (com t). }
  rewrite import_batch_unfold. cbv zeta. rewrite Hnew2.
  rewrite import_loop_uncommittable.
  - eexists. split; [reflexivity|]. simpl. split; [done|].
    destruct Himp as (Htot & Hi). split; [by rewrite Htot|].
    pose proof (filter_length_complement (is_duplicate (expenses m1)) transactions) as Hs2.
    rewrite Hnew2 in Hs2.
    pose proof (filter_length_complement dup0 transactions) as Hs1.
    pose proof (filter_length_complement com
                  (List.filter (fun t => negb (dup0 t)) transactions)) as Hs3.
    lia.
  - apply List.Forall_forall. intros t Ht. apply List.filter_In in Ht as [_ Ht].
    by apply negb_true_iff in Ht.
Qed.

Lemma second_import_imports_nothing_witness :
  exists m1 c1 c2,
    import_batch Sample.config_categories default_rules Sample.clock
      [Sample.whole_foods; Sample.corner_shop] Sample.january = Ok m1 c1 /\
    imported c1 = 1 /\
    import_batch Sample.config_categories default_rules Sample.clock
      [Sample.whole_foods; Sample.corner_shop] m1 = Ok m1 c2 /\
    imported c2 = 0 /\
    duplicates c2 = 1.
Proof.
  assert (H : exists m1 c1,
             import_batch Sample.config_categories default_rules Sample.clock
               [Sample.whole_foods; Sample.corner_shop] Sample.january = Ok m1 c1 /\
             imported c1 = 1 /\ duplicates c1 = 0).
  { eexists _, _. split; [vm_compute; reflexivity|]. split; reflexivity. }
  destruct H as (m1 & c1 & H & Hi & Hd).
  assert (Hfin : Forall (fun t => Float.is_finite (trans_amount t) = true)
                   [Sample.whole_foods; Sample.corner_shop]).
  { repeat constructor. }
  destruct (second_import_imports_nothing _ _ _ Sample.clock _ _ _ _ Hfin H)
    as (c2 & H2 & Hi2 & _ & Hd2 & _).
  exists m1, c1, c2. split; [exact H|]. split; [exact Hi|].
  split; [exact H2|]. split; [exact Hi2|]. rewrite Hd2, Hd, Hi. reflexivity.
Defined.

(** ** Imports that import nothing *)

(** X21.  An import commits nothing and leaves the month as it is when
    the rule tables are empty, when the configuration has no category,
    and when every candidate is already in the ledger; in the first two
    cases every new transaction is counted as not categorized. *)
Theorem import_of_nothing config_categories rules now transactions m :
  (learned_rules rules = [] /\ keyword_rules rules = []) \/
  config_categories = ∅ \/
  Forall (fun t => is_duplicate (expenses m) t = true) transactions ->
  exists c,
    import_batch config_categories rules now transactions m = Ok m c /\
    imported c = 0 /\
    duplicates c + unresolved c = length transactions.
Proof.
  intros H. rewrite import_batch_unfold. cbv zeta.
  set (new_transactions :=
         List.filter (fun t => negb (is_duplicate (expenses m) t)) transactions).
  assert (Hun : Forall (fun t => committable config_categories rules t = false)
                  new_transactions).
  { destruct H as [[Hl Hk]|[->|Hd]].
    - apply List.Forall_forall. intros t _. unfold committable, auto_categorize.
      by rewrite Hl, Hk.
    - apply List.Forall_forall. intros t _. unfold committable, in_config.
      destruct (auto_categorize (trans_description t) rules); [|done].
      rewrite bool_decide_eq_false_2, andb_false_r; [done|].
      rewrite lookup_empty. by intros [? ?].
    - replace new_transactions with (@nil Transaction); [constructor|].
      unfold new_transactions. clear -Hd.
      induction Hd as [|t l Ht _ IH]; [done|]. simpl. by rewrite Ht. }
  rewrite import_loop_uncommittable by done.
  eexists. split; [reflexivity|]. simpl. split; [done|].
  pose proof (filter_length_complement (is_duplicate (expenses m)) transactions) as Hs.
  fold new_transactions in Hs. lia.
Qed.

Lemma import_of_nothing_witness :
  exists c,
    import_batch ∅ default_rules Sample.clock
      [Sample.whole_foods; Sample.corner_shop] Sample.january = Ok Sample.january c /\
    imported c = 0.
Proof.
  destruct (import_of_nothing ∅ default_rules Sample.clock
              [Sample.whole_foods; Sample.corner_shop] Sample.january)
    as (c & H & Hi & _).
  - right. left. reflexivity.
  - exists c. split; [exact H|exact Hi].
Defined.
